(** * ACE: the AZTEC Cryptography Engine (packages/protocol/contracts/ACE/ACE.sol)

    A shallow embedding of the contract's storage and of its external
    functions, and the properties of the validator registry, the proof
    dispatcher and the validated-proof ledger.

    Layout of the development:
    - [Word]: EVM words and the byte encodings the contract hashes;
    - [Exec]: the execution monad (storage, revert, event trace);
    - the imported libraries, as far as ACE.sol uses them;
    - [ACE]: the functions of ACE.sol, over [keccak256], the static call
      into a validator and the [BALANCED] category;
    - [Stub]: a concrete instance of those three, used to run the contract
      on examples;
    - the properties, and their instances on the examples. *)

From Stdlib Require Import ZArith Lia.
From stdpp Require Import base gmap strings list.

Local Open Scope Z_scope.

(** ** Words and bytes *)

Module Word.

(** Solidity value types are kept as integers; the width is a property of
    the value ([uint8]: below 2^8, [uint24]: below 2^24, ...). *)
Abbreviation address := (Z) (only parsing).
Abbreviation bytes32 := (Z) (only parsing).
Abbreviation uint8 := (Z) (only parsing).
Abbreviation uint24 := (Z) (only parsing).
Abbreviation bytes := (list Byte.byte) (only parsing).

(** Yul [iszero]. *)
Definition iszero (w : Z) : Z := if w =? 0 then 1 else 0.

(** Conversion of a word to Solidity's [bool]: any non-zero word is true. *)
Definition to_bool (w : Z) : bool := negb (w =? 0).

Definition of_bool (b : bool) : Z := if b then 1 else 0.

Definition byte_of_Z (z : Z) : Byte.byte :=
  match Byte.of_N (Z.to_N (z mod 256)) with
  | Some b => b
  | None => Byte.x00
  end.

(** The [n] low-order bytes of [w], most significant first. *)
Fixpoint be_bytes (n : nat) (w : Z) : bytes :=
  match n with
  | O => []
  | S n' => be_bytes n' (w / 256) ++ [byte_of_Z w]
  end.

(** [abi.encode(a, b, c)] for three static values: three 32-byte words.
    [validateProofByHash] builds the same 0x60 bytes with three [mstore]. *)
Definition abi_encode3 (a b c : Z) : bytes :=
  be_bytes 32 a ++ be_bytes 32 b ++ be_bytes 32 c.

Definition uint24_range (p : Z) : Prop := 0 <= p < 0x1000000.

End Word.

Import Word.

(** ** Storage *)

(** The state variables of ACE.  The two fixed-size arrays are kept as the
    storage words they occupy, indexed by the offset from the array's first
    slot, because the contract reads them both through Solidity index
    expressions and through [sload] at a computed offset.  A missing entry
    is the zero word.  [validatedProofs] is a Solidity mapping; its two
    accesses in Yul ([sload(keccak256(0x00, 0x40))]) address the same entry
    as [validatedProofs[validatedProofHash]]. *)
Record storage := mkStorage {
  _owner : address;
  commonReferenceString : list bytes32;
  validators : gmap Z Z;
  disabledValidators : gmap Z Z;
  latestEpoch : uint8;
  validatedProofs : gmap Z bool
}.

Definition set_commonReferenceString (v : list bytes32) (s : storage) : storage :=
  mkStorage (_owner s) v (validators s) (disabledValidators s)
            (latestEpoch s) (validatedProofs s).

Definition set_validators (v : gmap Z Z) (s : storage) : storage :=
  mkStorage (_owner s) (commonReferenceString s) v (disabledValidators s)
            (latestEpoch s) (validatedProofs s).

Definition set_disabledValidators (v : gmap Z Z) (s : storage) : storage :=
  mkStorage (_owner s) (commonReferenceString s) (validators s) v
            (latestEpoch s) (validatedProofs s).

Definition set_latestEpoch (v : uint8) (s : storage) : storage :=
  mkStorage (_owner s) (commonReferenceString s) (validators s)
            (disabledValidators s) v (validatedProofs s).

Definition set_validatedProofs (v : gmap Z bool) (s : storage) : storage :=
  mkStorage (_owner s) (commonReferenceString s) (validators s)
            (disabledValidators s) (latestEpoch s) v.

(** [sload]: a slot never written holds the zero word, a mapping entry
    never written is [false]. *)
Definition word_at (region : gmap Z Z) (offset : Z) : Z :=
  default 0 (region !! offset).

Definition entry_at (mapping : gmap Z bool) (key : bytes32) : bool :=
  default false (mapping !! key).

(** Storage layout of [address[0x100][0x100][0x10000] validators]: an address
    takes 20 bytes, so one element per slot; [validators[e][c][i]] is the
    word at offset [e * 0x10000 + c * 0x100 + i]. *)
Definition validators_offset (epoch category id : Z) : Z :=
  epoch * 0x10000 + category * 0x100 + id.

(** Storage layout of [bool[0x100][0x100][0x10000] disabledValidators]: a
    bool takes one byte and array elements are packed, 32 to a slot, lowest
    byte first.  The innermost [bool[0x100]] therefore spans 8 slots and a
    [bool[0x100][0x100]] spans 0x800: [disabledValidators[e][c][i]] is byte
    [i mod 32] of the word at offset [e * 0x800 + c * 8 + i / 32]. *)
Definition disabledValidators_offset (epoch category id : Z) : Z :=
  epoch * 0x800 + category * 8 + id / 32.

Definition disabledValidators_byte (id : Z) : Z := id mod 32.

(** Read and write one byte of a word ([i] counts from the lowest byte). *)
Definition get_byte (w i : Z) : Z := Z.land (Z.shiftr w (8 * i)) 0xff.

Definition put_byte (w i v : Z) : Z :=
  Z.lor (Z.ldiff w (Z.shiftl 0xff (8 * i))) (Z.shiftl v (8 * i)).

(** The state right after [constructor()]: [latestEpoch = 1], everything
    else zero, the deployer as owner. *)
Definition deployed (deployer : address) : storage :=
  mkStorage deployer (replicate 6 0) ∅ ∅ 1 ∅.

(** ** Execution monad *)

Module Exec.

(** How a call can abort: [require(cond, msg)], the raw
    [mstore(0x00, w) revert(0x00, 0x20)] of [validateProof], or a
    [require] inside an imported library whose text is outside ACE.sol. *)
Inductive revert_reason :=
| Error (msg : string)
| RevertData (w : Z)
| LibraryRevert (lib : string).

(** What a call does that is visible from outside its own frame. *)
Inductive event :=
| Ev_staticcall (callee : address) (seen : storage)
| Ev_sstore (variable : string) (key : Z)
| Ev_emit (name : string) (args : list Z).

(** The running frame: working storage and the events so far, most
    recent first. *)
Record machine := mkMachine { store : storage; trace : list event }.

Inductive outcome (A : Type) :=
| Returned (a : A) (m : machine)
| Reverted (r : revert_reason) (m : machine).
Arguments Returned {A} a m.
Arguments Reverted {A} r m.

Definition exec (A : Type) : Type := machine -> outcome A.

Definition ret {A} (a : A) : exec A := fun m => Returned a m.

Definition bind {A B} (c : exec A) (k : A -> exec B) : exec B :=
  fun m =>
    match c m with
    | Returned a m' => k a m'
    | Reverted r m' => Reverted r m'
    end.

Definition revert {A} (r : revert_reason) : exec A := fun m => Reverted r m.

Definition require (cond : bool) (msg : string) : exec unit :=
  fun m => if cond then Returned tt m else Reverted (Error msg) m.

Definition sload : exec storage := fun m => Returned (store m) m.

Definition log (e : event) : exec unit :=
  fun m => Returned tt (mkMachine (store m) (e :: trace m)).

(** A storage write: the update and its trace entry. *)
Definition sstore (variable : string) (key : Z) (upd : storage -> storage)
  : exec unit :=
  fun m => Returned tt (mkMachine (upd (store m)) (Ev_sstore variable key :: trace m)).

(** [for (uint256 i = from; i < from + n; i += 1) body(i)]. *)
Fixpoint for_loop (n : nat) (from : nat) (body : nat -> exec unit) : exec unit :=
  match n with
  | O => ret tt
  | S n' => bind (body from) (fun _ => for_loop n' (S from) body)
  end.

(** Running an external call on a storage.  The outcome keeps the frame
    as it was when the call ended. *)
Definition run {A} (c : exec A) (s : storage) : outcome A :=
  c (mkMachine s []).

(** The storage after the transaction: the EVM commits the writes of a
    call that returns and discards every write of one that reverts. *)
Definition post_state {A} (o : outcome A) (pre : storage) : storage :=
  match o with
  | Returned _ m => store m
  | Reverted _ _ => pre
  end.

Definition transact {A} (c : exec A) (s : storage) : storage :=
  post_state (run c s) s.

Definition succeeds {A} (o : outcome A) : bool :=
  match o with Returned _ _ => true | Reverted _ _ => false end.

End Exec.

Import Exec.

Notation "x <~ c ; k" := (bind c (fun x => k))
  (at level 20, c at level 100, k at level 200, only parsing).
Notation "c ;~ k" := (bind c (fun _ => k))
  (at level 100, k at level 200, right associativity, only parsing).

(** ** Imported libraries *)

(** Modelled from the spec: ProofUtils.getProofComponents (ProofUtils.sol is
    not among the sources).  "ProofIdentifier: a 24-bit value decomposed
    into three 8-bit fields (epoch, category, id)"; the byte positions are
    the ones ACE.sol itself uses: [(_proof >> 8) & 0xff] for the category in
    [validateProof], [and(_proof, 0xff)] for the id in the comments of
    [validateProofByHash]. *)
Definition getProofComponents (proof : uint24) : uint8 * uint8 * uint8 :=
  (Z.land (Z.shiftr proof 16) 0xff,
   Z.land (Z.shiftr proof 8) 0xff,
   Z.land proof 0xff).

Definition proof_epoch (proof : uint24) : uint8 :=
  let '(epoch, _, _) := getProofComponents proof in epoch.

Definition proof_category (proof : uint24) : uint8 :=
  let '(_, category, _) := getProofComponents proof in category.

Definition proof_id (proof : uint24) : uint8 :=
  let '(_, _, id) := getProofComponents proof in id.

(** Modelled from the spec: Ownable.isOwner (openzeppelin-solidity is not
    among the sources).  "Privileged operations, all requiring an owner
    credential": the caller is compared with the stored owner. *)
Definition isOwner (msg_sender : address) (s : storage) : bool :=
  msg_sender =? _owner s.

(** Modelled from the spec: SafeMath8.add (SafeMath8.sol is not among the
    sources).  "LatestEpoch only increases": on the [uint8] that ACE.sol
    declares for [latestEpoch], the sum is taken modulo 2^8 and the call
    reverts when it wrapped, as OpenZeppelin's SafeMath does for uint256. *)
Definition SafeMath8_add (a b : uint8) : exec uint8 :=
  let c := (a + b) mod 256 in
  if a <=? c then ret c else revert (LibraryRevert "SafeMath8.add").

(** Modelled from the spec: NoteUtils.getLength and NoteUtils.get
    (NoteUtils.sol is not among the sources).  "OutputBlob is an ordered
    sequence of sub-outputs, each independently fingerprint-able": the blob
    is the list of its sub-outputs, [getLength] their number and [get i]
    the [i]-th of them. *)
Abbreviation proofOutputs := (list bytes) (only parsing).

Definition getLength (outputs : proofOutputs) : nat := length outputs.

Definition get (outputs : proofOutputs) (i : nat) : bytes := nth i outputs [].

(** ** The contract *)

Module ACE.

Section Contract.

(** The EVM's [keccak256]. *)
Variable keccak256 : bytes -> bytes32.

(** The [staticcall] into a validator contract with the calldata
    [validateProof] assembles: proof data, sender and the six words of the
    common reference string.  [None] is a failed call; otherwise the
    returned [bytes proofOutputs].  A static call cannot write storage. *)
Variable staticcall : address -> bytes -> address -> list bytes32 -> option proofOutputs.

(** [uint8(ProofCategory.BALANCED)]; the enum is declared in IAZTEC.sol,
    which is not among the sources. *)
Variable BALANCED : uint8.

Definition validatedProofs_key (proofHash : bytes32) (_proof : uint24)
           (who : address) : bytes32 :=
  keccak256 (abi_encode3 proofHash _proof who).

Definition getValidatorAddress (_proof : uint24) : exec address :=
  s <~ sload;
  let isValidatorDisabled := word_at (disabledValidators s) _proof in
  let validatorAddress := word_at (validators s) _proof in
  let queryInvalid := Z.lor (iszero validatorAddress) isValidatorDisabled in
  if to_bool queryInvalid then
    require (negb (validatorAddress =? 0))
            "expected the validator address to exist" ;~
    require (eqb (to_bool isValidatorDisabled) false)
            "expected the validator address to not be disabled" ;~
    ret validatorAddress
  else ret validatorAddress.

Definition validateProof (msg_sender : address) (_proof : uint24)
           (_sender : address) (proofData : bytes) : exec proofOutputs :=
  validatorAddress <~ getValidatorAddress _proof;
  s <~ sload;
  log (Ev_staticcall validatorAddress s) ;~
  match staticcall validatorAddress proofData _sender (commonReferenceString s) with
  | None => revert (RevertData 400)
  | Some proofOutputs =>
      (if Z.land (Z.shiftr _proof 8) 0xff =? BALANCED then
         for_loop (getLength proofOutputs) 0 (fun i =>
           let proofHash := keccak256 (get proofOutputs i) in
           let validatedProofHash := validatedProofs_key proofHash _proof msg_sender in
           sstore "validatedProofs" validatedProofHash
                  (fun s => set_validatedProofs
                              (<[validatedProofHash := true]> (validatedProofs s)) s))
       else ret tt) ;~
      ret proofOutputs
  end.

Definition clearProofByHashes (msg_sender : address) (_proof : uint24)
           (_proofHashes : list bytes32) : exec unit :=
  for_loop (length _proofHashes) 0 (fun i =>
    let proofHash := nth i _proofHashes 0 in
    require (negb (proofHash =? 0)) "expected no empty proof hash" ;~
    let validatedProofHash := validatedProofs_key proofHash _proof msg_sender in
    s <~ sload;
    require (eqb (entry_at (validatedProofs s) validatedProofHash) true)
            "can only clear previously validated proofs" ;~
    sstore "validatedProofs" validatedProofHash
           (fun s => set_validatedProofs
                       (<[validatedProofHash := false]> (validatedProofs s)) s)).

Definition setCommonReferenceString (msg_sender : address)
           (_commonReferenceString : list bytes32) : exec unit :=
  s <~ sload;
  require (isOwner msg_sender s)
          "only the owner can set the common reference string" ;~
  sstore "commonReferenceString" 0
         (set_commonReferenceString _commonReferenceString) ;~
  log (Ev_emit "SetCommonReferenceString" _commonReferenceString).

Definition invalidateProof (msg_sender : address) (_proof : uint24) : exec unit :=
  s <~ sload;
  require (isOwner msg_sender s) "only the owner can invalidate a proof" ;~
  let '(epoch, category, id) := getProofComponents _proof in
  require (negb (word_at (validators s) (validators_offset epoch category id) =? 0))
          "can only invalidate proofs that exist!" ;~
  let slot := disabledValidators_offset epoch category id in
  sstore "disabledValidators" slot
         (fun s => set_disabledValidators
                     (<[slot := put_byte (word_at (disabledValidators s) slot)
                                         (disabledValidators_byte id) (of_bool true)]>
                        (disabledValidators s)) s).

Definition validateProofByHash (_proof : uint24) (_proofHash : bytes32)
           (_sender : address) : exec bool :=
  s <~ sload;
  let isValidatorDisabled := word_at (disabledValidators s) _proof in
  let isProofValid := entry_at (validatedProofs s) (validatedProofs_key _proofHash _proof _sender) in
  require (eqb (to_bool isValidatorDisabled) false)
          "this proof id has been invalidated!" ;~
  ret isProofValid.

Definition setProof (msg_sender : address) (_proof : uint24)
           (_validatorAddress : address) : exec unit :=
  s <~ sload;
  require (isOwner msg_sender s) "only the owner can set a proof" ;~
  let '(epoch, category, id) := getProofComponents _proof in
  require (epoch <=? latestEpoch s)
          "the proof epoch cannot be bigger than the latest epoch" ;~
  require (word_at (validators s) (validators_offset epoch category id) =? 0)
          "existing proofs cannot be modified" ;~
  let slot := validators_offset epoch category id in
  sstore "validators" slot
         (fun s => set_validators (<[slot := _validatorAddress]> (validators s)) s) ;~
  log (Ev_emit "SetProof" [epoch; category; id; _validatorAddress]).

Definition incrementLatestEpoch (msg_sender : address) : exec unit :=
  s <~ sload;
  require (isOwner msg_sender s) "only the owner can update the latest epoch" ;~
  e <~ SafeMath8_add (latestEpoch s) 1;
  sstore "latestEpoch" 0 (set_latestEpoch e) ;~
  s' <~ sload;
  log (Ev_emit "IncrementLatestEpoch" [latestEpoch s']).

Definition getCommonReferenceString : exec (list bytes32) :=
  s <~ sload;
  ret (commonReferenceString s).

(** The public getter Solidity generates for [disabledValidators]. *)
Definition disabledValidators_getter (epoch category id : Z) (s : storage) : bool :=
  to_bool (get_byte (word_at (disabledValidators s) (disabledValidators_offset epoch category id))
                    (disabledValidators_byte id)).

(** The public getter Solidity generates for [validators]. *)
Definition validators_getter (epoch category id : Z) (s : storage) : address :=
  word_at (validators s) (validators_offset epoch category id).

(** *** Fingerprints and ledger keys *)

(** The fingerprint of a sub-output, and the keys under which
    [validateProof] records the sub-outputs of a blob for [who]. *)
Definition fingerprint (subOutput : bytes) : bytes32 := keccak256 subOutput.

Definition ledger_keys (who : address) (_proof : uint24) (outputs : proofOutputs)
  : list bytes32 :=
  map (fun o => validatedProofs_key (fingerprint o) _proof who) outputs.

(** The keys [clearProofByHashes] visits. *)
Definition clear_keys (who : address) (_proof : uint24) (hashes : list bytes32)
  : list bytes32 :=
  map (fun h => validatedProofs_key h _proof who) hashes.

(** *** Transactions *)

(** The external functions of ACE.sol that can write storage. *)
Inductive call :=
| ValidateProof (_proof : uint24) (_sender : address) (proofData : bytes)
| ClearProofByHashes (_proof : uint24) (_proofHashes : list bytes32)
| SetCommonReferenceString (_commonReferenceString : list bytes32)
| InvalidateProof (_proof : uint24)
| SetProof (_proof : uint24) (_validatorAddress : address)
| IncrementLatestEpoch.

Definition perform (msg_sender : address) (c : call) : exec unit :=
  match c with
  | ValidateProof p sender data => validateProof msg_sender p sender data ;~ ret tt
  | ClearProofByHashes p hs => clearProofByHashes msg_sender p hs
  | SetCommonReferenceString crs => setCommonReferenceString msg_sender crs
  | InvalidateProof p => invalidateProof msg_sender p
  | SetProof p v => setProof msg_sender p v
  | IncrementLatestEpoch => incrementLatestEpoch msg_sender
  end.

(** A history: transactions, each with its caller, applied in order. *)
Fixpoint replay (txs : list (address * call)) (s : storage) : storage :=
  match txs with
  | [] => s
  | (who, c) :: rest => replay rest (transact (perform who c) s)
  end.

End Contract.

End ACE.

Import ACE.

(** ** Loops as list traversals *)

(** The two loops of the contract walk an array by index.  For the proofs
    they are read as traversals of the list ([for_loop_each] below). *)
Fixpoint each {X} (body : X -> exec unit) (l : list X) : exec unit :=
  match l with
  | [] => ret tt
  | x :: rest => bind (body x) (fun _ => each body rest)
  end.

(** The ledger after [validatedProofs[k] = v] for each [k] of [keys], in
    order. *)
Definition assign_all (v : bool) (keys : list bytes32) (s : storage) : storage :=
  fold_left (fun s k => set_validatedProofs (<[k := v]> (validatedProofs s)) s) keys s.

(** The body of the loop of [clearProofByHashes], as a function of the
    fingerprint [_proofHashes[i]] and of its ledger key. *)
Definition clear_one (proofHash validatedProofHash : bytes32) : exec unit :=
  require (negb (proofHash =? 0)) "expected no empty proof hash" ;~
  s <~ sload;
  require (eqb (entry_at (validatedProofs s) validatedProofHash) true)
          "can only clear previously validated proofs" ;~
  sstore "validatedProofs" validatedProofHash
         (fun s => set_validatedProofs
                     (<[validatedProofHash := false]> (validatedProofs s)) s).

(** Every flag set in [disabledValidators] belongs to a bound slot of
    [validators]: byte [j] of the word at offset [o] is the flag of the
    element whose slot in [validators] has offset [o * 32 + j]. *)
Definition flags_bound (s : storage) : Prop :=
  forall o j, 0 <= j < 32 ->
    get_byte (word_at (disabledValidators s) o) j <> 0 ->
    word_at (validators s) (o * 32 + j) <> 0.

Definition is_sstore (e : event) : Prop :=
  match e with Ev_sstore _ _ => True | _ => False end.

(** ** A concrete instance for examples *)

Module Stub.

(** A stand-in for [keccak256]: the bytes read as digits in base 257,
    reduced to 256 bits. *)
Definition keccak256 (b : bytes) : bytes32 :=
  fold_left (fun acc x => acc * 257 + Z.of_N (Byte.to_N x) + 1) b 0 mod 2 ^ 256.

Definition echo : address := 0x2000.
Definition pair : address := 0x2001.
Definition twin : address := 0x2002.

(** Three validator contracts: [echo] returns the proof data as a single
    sub-output, [pair] the proof data and the sender's 20 bytes, [twin]
    the proof data twice.  All reject empty proof data; a call to any
    other address fails. *)
Definition staticcall (callee : address) (proofData : bytes) (_sender : address)
           (crs : list bytes32) : option proofOutputs :=
  match proofData with
  | [] => None
  | _ =>
      if callee =? echo then Some [proofData]
      else if callee =? pair then Some [proofData; be_bytes 20 _sender]
      else if callee =? twin then Some [proofData; proofData]
      else None
  end.

Definition BALANCED : uint8 := 1.

Definition owner : address := 0xace.
Definition dapp : address := 0xda.
Definition alice : address := 0xa1.

Definition data : bytes := [Byte.x01; Byte.x02; Byte.x03].

(** epoch 1, category 1, id 1 *)
Definition JOIN_SPLIT : uint24 := 0x010101.
(** epoch 1, category 4, id 1: a category other than [BALANCED] *)
Definition UTILITY_1 : uint24 := 0x010401.

Definition validateProof := ACE.validateProof keccak256 staticcall BALANCED.
Definition clearProofByHashes := ACE.clearProofByHashes keccak256.
Definition validateProofByHash := ACE.validateProofByHash keccak256.
Definition key := validatedProofs_key keccak256.
Definition replay := ACE.replay keccak256 staticcall BALANCED.

Definition fingerprint := ACE.fingerprint keccak256.

(** epoch 5: beyond the epoch of a fresh engine *)
Definition EPOCH_5 : uint24 := 0x050101.
(** epoch 0, category 8, id 8: the proof object whose number is
    [JOIN_SPLIT / 32] *)
Definition SHADOWED : uint24 := 0x000808.

(** epoch 1, category 1, id 2 *)
Definition SWAP : uint24 := 0x010102.

(** A fresh engine in which the owner has bound [pair] to [JOIN_SPLIT], to
    [UTILITY_1] and to [SHADOWED], and [twin] to [SWAP]. *)
Definition registered : storage :=
  replay [(owner, SetProof JOIN_SPLIT pair);
          (owner, SetProof UTILITY_1 pair);
          (owner, SetProof SHADOWED pair);
          (owner, SetProof SWAP twin)]
         (deployed owner).

(** The two fingerprints of what [pair] returns for [data] and [alice]. *)
Definition fp1 : bytes32 := fingerprint data.
Definition fp2 : bytes32 := fingerprint (be_bytes 20 alice).

(** Then [dapp] has a join-split proof validated, naming [alice] as the
    sender. *)
Definition validated : storage :=
  transact (validateProof dapp JOIN_SPLIT alice data) registered.

(** Then the owner invalidates [JOIN_SPLIT]. *)
Definition invalidated : storage :=
  transact (invalidateProof owner JOIN_SPLIT) validated.

(** epoch 2: the epoch right after the one of a fresh engine *)
Definition EPOCH_2 : uint24 := 0x020101.

(** Six words for the common reference string. *)
Definition crs : list bytes32 := [11; 12; 13; 14; 15; 16].

(** A fresh engine after 254 increments of the epoch by the owner. *)
Definition last_epoch : storage :=
  replay (replicate 254 (owner, IncrementLatestEpoch)) (deployed owner).

End Stub.

(** ** Properties *)

(** Projections of an updated storage, without unfolding the maps. *)
Ltac simpl_storage :=
  cbn [store trace _owner commonReferenceString validators disabledValidators
       latestEpoch validatedProofs set_commonReferenceString set_validators
       set_disabledValidators set_latestEpoch set_validatedProofs
       post_state succeeds] in *.

(** *** The execution monad and the loops *)

Lemma for_loop_each {X} (d : X) (body : X -> exec unit) (l : list X) :
  forall (pre : list X) (m : machine),
    for_loop (length l) (length pre) (fun i => body (nth i (pre ++ l) d)) m
    = each body l m.
Proof.
  induction l as [|x l IH]; intros pre m; simpl.
  - reflexivity.
  - unfold bind.
    rewrite app_nth2 by lia. rewrite Nat.sub_diag. simpl.
    destruct (body x m) as [[] m'|r m']; [|reflexivity].
    specialize (IH (pre ++ [x]) m').
    rewrite length_app in IH. simpl in IH.
    rewrite Nat.add_1_r in IH.
    rewrite <- IH. f_equal.
    rewrite <- app_assoc. reflexivity.
Qed.

Lemma for_loop_from_0 {X} (d : X) (body : X -> exec unit) (l : list X) (m : machine) :
  for_loop (length l) 0 (fun i => body (nth i l d)) m = each body l m.
Proof. exact (for_loop_each d body l [] m). Qed.

Lemma Returned_inj {A} (a a' : A) (m m' : machine) :
  Returned a m = Returned a' m' -> a = a' /\ m = m'.
Proof. intros H. inversion H. split; reflexivity. Qed.

Lemma entry_at_insert (L : gmap Z bool) (k k' : Z) (v : bool) :
  entry_at (<[k := v]> L) k' = if decide (k = k') then v else entry_at L k'.
Proof.
  unfold entry_at. rewrite lookup_insert.
  repeat case_decide; simpl; congruence.
Qed.

Lemma word_at_insert (R : gmap Z Z) (k k' w : Z) :
  word_at (<[k := w]> R) k' = if decide (k = k') then w else word_at R k'.
Proof.
  unfold word_at. rewrite lookup_insert.
  repeat case_decide; simpl; congruence.
Qed.

(** [assign_all] touches the ledger only. *)
Lemma assign_all_frame (v : bool) (keys : list bytes32) (s : storage) :
  _owner (assign_all v keys s) = _owner s
  /\ commonReferenceString (assign_all v keys s) = commonReferenceString s
  /\ validators (assign_all v keys s) = validators s
  /\ disabledValidators (assign_all v keys s) = disabledValidators s
  /\ latestEpoch (assign_all v keys s) = latestEpoch s.
Proof.
  revert s. induction keys as [|k keys IH]; intros s; simpl.
  - repeat split.
  - unfold assign_all in IH.
    destruct (IH (set_validatedProofs (<[k:=v]> (validatedProofs s)) s))
      as (H1 & H2 & H3 & H4 & H5).
    unfold assign_all; simpl. rewrite H1, H2, H3, H4, H5. repeat split.
Qed.

(** A listed key reads [v] afterwards, any other key reads as before. *)
Lemma assign_all_entry (v : bool) (keys : list bytes32) (s : storage) (k : bytes32) :
  entry_at (validatedProofs (assign_all v keys s)) k
  = if decide (k ∈ keys) then v else entry_at (validatedProofs s) k.
Proof.
  revert s. induction keys as [|k0 keys IH]; intros s.
  - simpl. destruct (decide (k ∈ [])) as [H|H]; [|reflexivity].
    apply elem_of_nil in H. destruct H.
  - change (assign_all v (k0 :: keys) s)
      with (assign_all v keys (set_validatedProofs (<[k0:=v]> (validatedProofs s)) s)).
    rewrite IH. simpl. rewrite entry_at_insert.
    destruct (decide (k ∈ keys)) as [Hin|Hin];
      destruct (decide (k ∈ k0 :: keys)) as [Hin'|Hin']; try reflexivity.
    + exfalso. apply Hin'. right. exact Hin.
    + destruct (decide _) as [Hk|Hk]; [reflexivity|].
      apply elem_of_cons in Hin'. destruct Hin' as [Hk'|Hk']; [|contradiction].
      exfalso. apply Hk. symmetry. exact Hk'.
    + destruct (decide _) as [Hk|Hk]; [|reflexivity].
      exfalso. apply Hin'. rewrite Hk. left.
Qed.

Section Properties.

Variable keccak256 : bytes -> bytes32.
Variable staticcall : address -> bytes -> address -> list bytes32 -> option proofOutputs.
Variable BALANCED : uint8.

Local Abbreviation validateProof := (ACE.validateProof keccak256 staticcall BALANCED).
Local Abbreviation clearProofByHashes := (ACE.clearProofByHashes keccak256).
Local Abbreviation validateProofByHash := (ACE.validateProofByHash keccak256).
Local Abbreviation key := (validatedProofs_key keccak256).
Local Abbreviation ledger_keys := (ACE.ledger_keys keccak256).
Local Abbreviation clear_keys := (ACE.clear_keys keccak256).
Local Abbreviation fingerprint := (ACE.fingerprint keccak256).
Local Abbreviation perform := (ACE.perform keccak256 staticcall BALANCED).
Local Abbreviation replay := (ACE.replay keccak256 staticcall BALANCED).

(** *** Symbolic evaluation of the dispatcher *)

Lemma getValidatorAddress_run (p : uint24) (m : machine) :
  getValidatorAddress p m =
    if word_at (validators (store m)) p =? 0
    then Reverted (Error "expected the validator address to exist") m
    else if word_at (disabledValidators (store m)) p =? 0
         then Returned (word_at (validators (store m)) p) m
         else Reverted (Error "expected the validator address to not be disabled") m.
Proof.
  unfold getValidatorAddress, bind, sload, require, ret, to_bool, iszero.
  destruct (word_at (validators (store m)) p =? 0) eqn:Hv;
    destruct (word_at (disabledValidators (store m)) p =? 0) eqn:Hd; simpl.
  - apply Z.eqb_eq in Hd. rewrite Hd. reflexivity.
  - destruct (Z.lor 1 _ =? 0) eqn:Hl; [|reflexivity].
    apply Z.eqb_eq, Z.lor_eq_0_iff in Hl. lia.
  - apply Z.eqb_eq in Hd. rewrite Hd. reflexivity.
  - rewrite Z.lor_0_l, Hd. reflexivity.
Qed.

(** A proof object resolves exactly when its slot in [validators] is bound
    and the word the dispatcher reads in [disabledValidators] is zero. *)
Lemma getValidatorAddress_returned (p : uint24) (s : storage) (v : address)
      (m : machine) :
  run (getValidatorAddress p) s = Returned v m ->
  word_at (validators s) p = v /\ v <> 0 /\ word_at (disabledValidators s) p = 0.
Proof.
  unfold run. rewrite getValidatorAddress_run. simpl_storage.
  destruct (word_at (validators s) p =? 0) eqn:Hb; [discriminate|].
  destruct (word_at (disabledValidators s) p =? 0) eqn:Hd; [|discriminate].
  intros H. apply Returned_inj in H. destruct H as [Hv _].
  apply Z.eqb_neq in Hb. apply Z.eqb_eq in Hd. subst v. repeat split; assumption.
Qed.

Lemma each_record (who : address) (p : uint24) (outs : proofOutputs) :
  forall m,
    each (fun o => sstore "validatedProofs" (key (keccak256 o) p who)
                     (fun s => set_validatedProofs
                                 (<[key (keccak256 o) p who := true]> (validatedProofs s)) s))
         outs m
    = Returned tt
        (mkMachine (assign_all true (ledger_keys who p outs) (store m))
                   (rev (map (Ev_sstore "validatedProofs") (ledger_keys who p outs))
                      ++ trace m)).
Proof.
  induction outs as [|o outs IH]; intros m.
  - destruct m; reflexivity.
  - simpl. unfold bind at 1. unfold sstore at 1.
    rewrite IH. simpl. rewrite <- app_assoc. reflexivity.
Qed.

(** What one call of [validateProof] does, case by case. *)
Lemma validateProof_run (who : address) (p : uint24) (sender : address)
      (data : bytes) (s : storage) :
  run (validateProof who p sender data) s =
    let va := word_at (validators s) p in
    if va =? 0
    then Reverted (Error "expected the validator address to exist") (mkMachine s [])
    else if word_at (disabledValidators s) p =? 0
    then match staticcall va data sender (commonReferenceString s) with
         | None => Reverted (RevertData 400) (mkMachine s [Ev_staticcall va s])
         | Some outs =>
             Returned outs
               (if Z.land (Z.shiftr p 8) 0xff =? BALANCED
                then mkMachine (assign_all true (ledger_keys who p outs) s)
                       (rev (map (Ev_sstore "validatedProofs") (ledger_keys who p outs))
                          ++ [Ev_staticcall va s])
                else mkMachine s [Ev_staticcall va s])
         end
    else Reverted (Error "expected the validator address to not be disabled")
                  (mkMachine s []).
Proof.
  unfold run, ACE.validateProof. unfold bind at 1.
  rewrite getValidatorAddress_run. simpl.
  destruct (word_at (validators s) p =? 0); [reflexivity|].
  destruct (word_at (disabledValidators s) p =? 0); [|reflexivity].
  unfold bind, sload, log. simpl.
  destruct (staticcall _ data sender _) as [outs|]; [|reflexivity].
  destruct (Z.land (Z.shiftr p 8) 255 =? BALANCED).
  - unfold getLength, get.
    rewrite (for_loop_from_0 []
               (fun o => sstore "validatedProofs" (key (keccak256 o) p who)
                           (fun s => set_validatedProofs
                                       (<[key (keccak256 o) p who := true]>
                                          (validatedProofs s)) s))).
    rewrite each_record. reflexivity.
  - reflexivity.
Qed.

(** *** Symbolic evaluation of [clearProofByHashes] *)

Lemma clearProofByHashes_each (who : address) (p : uint24) (hs : list bytes32)
      (m : machine) :
  clearProofByHashes who p hs m = each (fun h => clear_one h (key h p who)) hs m.
Proof.
  unfold ACE.clearProofByHashes.
  exact (for_loop_from_0 0 (fun h => clear_one h (key h p who)) hs m).
Qed.

Lemma clear_one_run (h k : bytes32) (m : machine) :
  clear_one h k m =
    if h =? 0 then Reverted (Error "expected no empty proof hash") m
    else if entry_at (validatedProofs (store m)) k
         then Returned tt
                (mkMachine (set_validatedProofs (<[k := false]> (validatedProofs (store m)))
                                                (store m))
                           (Ev_sstore "validatedProofs" k :: trace m))
         else Reverted (Error "can only clear previously validated proofs") m.
Proof.
  unfold clear_one, bind, require, sload, sstore.
  destruct (h =? 0); simpl; [reflexivity|].
  destruct (entry_at (validatedProofs (store m)) k); reflexivity.
Qed.

(** The call goes through when every fingerprint is non-zero, every record
    is set and no key comes twice. *)
Lemma clear_each_ok (who : address) (p : uint24) (hs : list bytes32) :
  forall m,
    Forall (fun h => h <> 0) hs ->
    Forall (fun h => entry_at (validatedProofs (store m)) (key h p who) = true) hs ->
    NoDup (clear_keys who p hs) ->
    each (fun h => clear_one h (key h p who)) hs m
    = Returned tt
        (mkMachine (assign_all false (clear_keys who p hs) (store m))
                   (rev (map (Ev_sstore "validatedProofs") (clear_keys who p hs))
                      ++ trace m)).
Proof.
  induction hs as [|h hs IH]; intros m Hnz Hset Hnd.
  - destruct m; reflexivity.
  - inversion Hnz as [|? ? Hh Hnz']; subst.
    inversion Hset as [|? ? Hk Hset']; subst.
    simpl in Hnd. apply NoDup_cons in Hnd. destruct Hnd as [Hfresh Hnd].
    simpl. unfold bind at 1. rewrite clear_one_run.
    apply Z.eqb_neq in Hh. rewrite Hh, Hk.
    rewrite IH; [| exact Hnz' | | exact Hnd].
    + simpl. rewrite <- app_assoc. reflexivity.
    + simpl. rewrite Forall_forall in Hset'. apply Forall_forall.
      intros h' Hin. rewrite entry_at_insert.
      destruct (decide _) as [Heq|Hne]; [|apply Hset'; exact Hin].
      exfalso. apply Hfresh. rewrite Heq.
      apply list_elem_of_fmap. exists h'. split; [reflexivity|exact Hin].
Qed.

(** Conversely a call that went through met the three conditions. *)
Lemma clear_each_inv (who : address) (p : uint24) (hs : list bytes32) :
  forall m u m',
    each (fun h => clear_one h (key h p who)) hs m = Returned u m' ->
    Forall (fun h => h <> 0) hs
    /\ Forall (fun h => entry_at (validatedProofs (store m)) (key h p who) = true) hs
    /\ NoDup (clear_keys who p hs).
Proof.
  induction hs as [|h hs IH]; intros m u m' Hrun.
  - repeat split; constructor.
  - simpl in Hrun. unfold bind at 1 in Hrun. rewrite clear_one_run in Hrun.
    destruct (h =? 0) eqn:Hh; [discriminate|].
    destruct (entry_at (validatedProofs (store m)) (key h p who)) eqn:Hk; [|discriminate].
    apply IH in Hrun. simpl in Hrun. destruct Hrun as (Hnz & Hset & Hnd).
    apply Z.eqb_neq in Hh.
    assert (Hfresh : key h p who ∉ clear_keys who p hs).
    { intros Hin. apply list_elem_of_fmap in Hin. destruct Hin as (h' & Heq & Hin).
      rewrite Forall_forall in Hset. specialize (Hset h' Hin).
      rewrite entry_at_insert in Hset.
      destruct (decide _) as [?|Hne]; [discriminate|]. apply Hne. exact Heq. }
    repeat split.
    + constructor; assumption.
    + constructor; [exact Hk|].
      rewrite Forall_forall in Hset. apply Forall_forall. intros h' Hin.
      specialize (Hset h' Hin). rewrite entry_at_insert in Hset.
      destruct (decide _) as [?|Hne]; [discriminate|exact Hset].
    + simpl. apply NoDup_cons. split; assumption.
Qed.

(** A call that aborts does so at one of the two [require]. *)
Lemma clear_each_reverted (who : address) (p : uint24) (hs : list bytes32) :
  forall m r m',
    each (fun h => clear_one h (key h p who)) hs m = Reverted r m' ->
    r = Error "expected no empty proof hash"
    \/ r = Error "can only clear previously validated proofs".
Proof.
  induction hs as [|h hs IH]; intros m r m' Hrun.
  - discriminate.
  - simpl in Hrun. unfold bind at 1 in Hrun. rewrite clear_one_run in Hrun.
    destruct (h =? 0); [left; congruence|].
    destruct (entry_at _ _); [|right; congruence].
    eapply IH. exact Hrun.
Qed.

(** *** Atomicity *)

(** C1. A [validateProof] that ends in an error (no validator bound, the
    validator disabled, or the validator's rejection) and a
    [clearProofByHashes] that fails leave the whole storage as it was before
    the call; a failing [validateProof] has not even attempted a write.  In
    a [validateProof] that succeeds the static call to the validator is the
    first event of the call and saw the storage of before the call: every
    write comes after the validator has returned its outputs. *)
Theorem failed_calls_change_nothing :
  forall (who : address) (p : uint24) (sender : address) (data : bytes)
         (hashes : list bytes32) (s : storage),
    (forall r m,
        run (validateProof who p sender data) s = Reverted r m ->
        (r = Error "expected the validator address to exist"
         \/ r = Error "expected the validator address to not be disabled"
         \/ r = RevertData 400)
        /\ store m = s
        /\ Forall (fun e => ~ is_sstore e) (trace m)
        /\ transact (validateProof who p sender data) s = s)
    /\ (forall r m,
          run (clearProofByHashes who p hashes) s = Reverted r m ->
          (r = Error "expected no empty proof hash"
           \/ r = Error "can only clear previously validated proofs")
          /\ transact (clearProofByHashes who p hashes) s = s)
    /\ (forall outs m,
          run (validateProof who p sender data) s = Returned outs m ->
          exists callee writes,
            trace m = writes ++ [Ev_staticcall callee s]
            /\ Forall is_sstore writes
            /\ staticcall callee data sender (commonReferenceString s) = Some outs).
Proof.
  intros who p sender data hashes s. split; [|split].
  - intros r m Hrun. unfold transact. rewrite Hrun. simpl.
    rewrite validateProof_run in Hrun. simpl in Hrun.
    destruct (word_at (validators s) p =? 0).
    { inversion Hrun; subst. simpl. repeat split; auto. }
    destruct (word_at (disabledValidators s) p =? 0).
    + destruct (staticcall _ data sender _); [discriminate|].
      inversion Hrun; subst. simpl. repeat split; auto.
    + inversion Hrun; subst. simpl. repeat split; auto.
  - intros r m Hrun. unfold transact. rewrite Hrun. simpl. split; [|reflexivity].
    unfold run in Hrun. rewrite clearProofByHashes_each in Hrun.
    eapply clear_each_reverted. exact Hrun.
  - intros outs m Hrun. rewrite validateProof_run in Hrun. simpl in Hrun.
    destruct (word_at (validators s) p =? 0); [discriminate|].
    destruct (word_at (disabledValidators s) p =? 0); [|discriminate].
    destruct (staticcall _ data sender _) as [outs'|] eqn:Hcall; [|discriminate].
    inversion Hrun; subst. exists (word_at (validators s) p).
    destruct (Z.land (Z.shiftr p 8) 255 =? BALANCED).
    + exists (rev (map (Ev_sstore "validatedProofs") (ledger_keys who p outs))).
      simpl. repeat split; [|exact Hcall].
      apply Forall_rev, Forall_forall. intros e He.
      apply list_elem_of_fmap in He. destruct He as (k & -> & _). exact I.
    + exists []. simpl. repeat split; [constructor|exact Hcall].
Qed.

(** *** The registry *)

Lemma land_0xff (x : Z) : Z.land x 0xff = x mod 256.
Proof. change 0xff with (Z.ones 8). rewrite Z.land_ones by lia. reflexivity. Qed.

(** For a well-formed [uint24] the slot computed from the three components
    is the one the Yul code addresses with [add(_proof, validators_slot)]. *)
Lemma validators_offset_components (p : uint24) :
  uint24_range p ->
  validators_offset (proof_epoch p) (proof_category p) (proof_id p) = p.
Proof.
  unfold uint24_range, validators_offset, proof_epoch, proof_category, proof_id,
    getProofComponents.
  intros Hp. rewrite !land_0xff, !Z.shiftr_div_pow2 by lia.
  change (2 ^ 16) with 65536. change (2 ^ 8) with 256.
  change 0x10000 with 65536. change 0x100 with 256.
  assert (H1 : p / 65536 = p / 256 / 256) by (rewrite Z.div_div by lia; reflexivity).
  assert (H2 : 0 <= p / 256 / 256 < 256) by (rewrite <- H1; split;
    [apply Z.div_pos; lia | apply Z.div_lt_upper_bound; lia]).
  rewrite H1, (Z.mod_small (p / 256 / 256)) by exact H2.
  pose proof (Z.div_mod p 256 ltac:(lia)) as E1.
  pose proof (Z.div_mod (p / 256) 256 ltac:(lia)) as E2.
  lia.
Qed.

Lemma setProof_run (who : address) (p : uint24) (v : address) (s : storage) :
  run (setProof who p v) s =
    let slot := validators_offset (proof_epoch p) (proof_category p) (proof_id p) in
    if isOwner who s
    then if proof_epoch p <=? latestEpoch s
         then if word_at (validators s) slot =? 0
              then Returned tt
                     (mkMachine (set_validators (<[slot := v]> (validators s)) s)
                        [Ev_emit "SetProof" [proof_epoch p; proof_category p; proof_id p; v];
                         Ev_sstore "validators" slot])
              else Reverted (Error "existing proofs cannot be modified") (mkMachine s [])
         else Reverted (Error "the proof epoch cannot be bigger than the latest epoch")
                       (mkMachine s [])
    else Reverted (Error "only the owner can set a proof") (mkMachine s []).
Proof.
  unfold run, setProof, proof_epoch, proof_category, proof_id, getProofComponents,
    bind, sload, require, sstore, log. cbv beta iota zeta. simpl_storage.
  destruct (isOwner who s); [|reflexivity].
  destruct (_ <=? latestEpoch s); [|reflexivity].
  destruct (word_at _ _ =? 0); reflexivity.
Qed.

Lemma invalidateProof_run (who : address) (p : uint24) (s : storage) :
  run (invalidateProof who p) s =
    let slot := disabledValidators_offset (proof_epoch p) (proof_category p) (proof_id p) in
    if isOwner who s
    then if word_at (validators s)
                    (validators_offset (proof_epoch p) (proof_category p) (proof_id p)) =? 0
         then Reverted (Error "can only invalidate proofs that exist!") (mkMachine s [])
         else Returned tt
                (mkMachine
                   (set_disabledValidators
                      (<[slot := put_byte (word_at (disabledValidators s) slot)
                                          (disabledValidators_byte (proof_id p)) 1]>
                         (disabledValidators s)) s)
                   [Ev_sstore "disabledValidators" slot])
    else Reverted (Error "only the owner can invalidate a proof") (mkMachine s []).
Proof.
  unfold run, invalidateProof, proof_epoch, proof_category, proof_id, getProofComponents,
    bind, sload, require, sstore. cbv beta iota zeta. simpl_storage.
  destruct (isOwner who s); [|reflexivity].
  destruct (word_at _ _ =? 0); reflexivity.
Qed.

Lemma incrementLatestEpoch_run (who : address) (s : storage) :
  run (incrementLatestEpoch who) s =
    if isOwner who s
    then if latestEpoch s <=? (latestEpoch s + 1) mod 256
         then Returned tt
                (mkMachine (set_latestEpoch ((latestEpoch s + 1) mod 256) s)
                   [Ev_emit "IncrementLatestEpoch" [(latestEpoch s + 1) mod 256];
                    Ev_sstore "latestEpoch" 0])
         else Reverted (LibraryRevert "SafeMath8.add") (mkMachine s [])
    else Reverted (Error "only the owner can update the latest epoch") (mkMachine s []).
Proof.
  unfold run, incrementLatestEpoch, SafeMath8_add, bind, sload, require, sstore, log,
    ret, revert. simpl.
  destruct (isOwner who s); [|reflexivity].
  destruct (latestEpoch s <=? _); reflexivity.
Qed.

Lemma setCommonReferenceString_run (who : address) (crs : list bytes32) (s : storage) :
  run (setCommonReferenceString who crs) s =
    if isOwner who s
    then Returned tt
           (mkMachine (set_commonReferenceString crs s)
              [Ev_emit "SetCommonReferenceString" crs;
               Ev_sstore "commonReferenceString" 0])
    else Reverted (Error "only the owner can set the common reference string")
                  (mkMachine s []).
Proof.
  unfold run, setCommonReferenceString, bind, sload, require, sstore, log. simpl.
  destruct (isOwner who s); reflexivity.
Qed.

Lemma validateProofByHash_run (p : uint24) (h : bytes32) (sender : address) (s : storage) :
  run (validateProofByHash p h sender) s =
    if word_at (disabledValidators s) p =? 0
    then Returned (entry_at (validatedProofs s) (key h p sender)) (mkMachine s [])
    else Reverted (Error "this proof id has been invalidated!") (mkMachine s []).
Proof.
  unfold run, ACE.validateProofByHash, bind, sload, require, ret, to_bool. simpl.
  destruct (word_at (disabledValidators s) p =? 0); reflexivity.
Qed.

(** *** What no transaction does *)

Lemma put_byte_nonzero (w i : Z) : 0 <= i -> put_byte w i 1 <> 0.
Proof.
  intros Hi H. unfold put_byte in H. apply Z.lor_eq_0_iff in H.
  destruct H as [_ H]. rewrite Z.shiftl_1_l in H.
  pose proof (Z.pow_pos_nonneg 2 (8 * i)). lia.
Qed.

Lemma clearProofByHashes_post (who : address) (p : uint24) (hs : list bytes32)
      (s : storage) :
  transact (clearProofByHashes who p hs) s = s
  \/ transact (clearProofByHashes who p hs) s = assign_all false (clear_keys who p hs) s.
Proof.
  unfold transact, run. rewrite clearProofByHashes_each.
  destruct (each _ hs _) as [[] m|r m] eqn:Hrun; [|left; reflexivity].
  right. pose proof Hrun as Hinv. apply clear_each_inv in Hinv.
  destruct Hinv as (Hnz & Hset & Hnd).
  rewrite (clear_each_ok who p hs _ Hnz Hset Hnd) in Hrun.
  inversion Hrun; subst. reflexivity.
Qed.

Lemma validateProof_post (who : address) (p : uint24) (sender : address)
      (data : bytes) (s : storage) :
  transact (validateProof who p sender data ;~ ret tt) s = s
  \/ exists outs,
       transact (validateProof who p sender data ;~ ret tt) s
       = assign_all true (ledger_keys who p outs) s.
Proof.
  unfold transact. unfold run, bind.
  change (validateProof who p sender data (mkMachine s []))
    with (run (validateProof who p sender data) s).
  rewrite validateProof_run. simpl.
  destruct (word_at (validators s) p =? 0); [left; reflexivity|].
  destruct (word_at (disabledValidators s) p =? 0); [|left; reflexivity].
  destruct (staticcall _ data sender _) as [outs|]; [|left; reflexivity].
  destruct (Z.land (Z.shiftr p 8) 255 =? BALANCED); [|left; reflexivity].
  right. exists outs. reflexivity.
Qed.

(** One transaction: the owner stays, the epoch does not go down, a bound
    validator slot keeps its word and a non-zero word of
    [disabledValidators] stays non-zero. *)
Lemma transact_frame (who : address) (c : call) (s : storage) :
  let s' := transact (perform who c) s in
  _owner s' = _owner s
  /\ latestEpoch s <= latestEpoch s'
  /\ (forall k, word_at (validators s) k <> 0 ->
               word_at (validators s') k = word_at (validators s) k)
  /\ (forall k, word_at (disabledValidators s) k <> 0 ->
               word_at (disabledValidators s') k <> 0).
Proof.
  destruct c as [p sender data|p hs|crs|p|p v|]; cbn [ACE.perform]; cbv zeta.
  - destruct (validateProof_post who p sender data s) as [E|[outs E]]; rewrite E.
    + repeat split; auto. lia.
    + destruct (assign_all_frame true (ledger_keys who p outs) s)
        as (H1 & H2 & H3 & H4 & H5).
      rewrite H1, H3, H4, H5. repeat split; auto. lia.
  - destruct (clearProofByHashes_post who p hs s) as [E|E]; rewrite E.
    + repeat split; auto. lia.
    + destruct (assign_all_frame false (clear_keys who p hs) s)
        as (H1 & H2 & H3 & H4 & H5).
      rewrite H1, H3, H4, H5. repeat split; auto. lia.
  - unfold transact. rewrite setCommonReferenceString_run.
    destruct (isOwner who s); simpl_storage; repeat split; auto; lia.
  - unfold transact. rewrite invalidateProof_run. cbv zeta; simpl_storage.
    destruct (isOwner who s); simpl_storage; [|repeat split; auto; lia].
    destruct (word_at (validators s) _ =? 0); simpl_storage; repeat split; auto; try lia.
    intros k Hk. rewrite word_at_insert.
    destruct (decide _) as [_|_]; [|exact Hk].
    apply put_byte_nonzero. unfold disabledValidators_byte.
    apply Z.mod_pos_bound. lia.
  - unfold transact. rewrite setProof_run. cbv zeta; simpl_storage.
    destruct (isOwner who s); simpl_storage; [|repeat split; auto; lia].
    destruct (proof_epoch p <=? latestEpoch s); simpl_storage; [|repeat split; auto; lia].
    destruct (word_at (validators s) _ =? 0) eqn:Hfree; simpl_storage; repeat split; auto; try lia.
    intros k Hk. rewrite word_at_insert.
    destruct (decide _) as [Heq|_]; [|reflexivity].
    apply Z.eqb_eq in Hfree. rewrite Heq in Hfree. contradiction.
  - unfold transact. rewrite incrementLatestEpoch_run.
    destruct (isOwner who s); simpl_storage; [|repeat split; auto; lia].
    destruct (latestEpoch s <=? _) eqn:Hle; simpl_storage; repeat split; auto; try lia.
Qed.

Lemma replay_frame (txs : list (address * call)) :
  forall s,
    _owner (replay txs s) = _owner s
    /\ latestEpoch s <= latestEpoch (replay txs s)
    /\ (forall k, word_at (validators s) k <> 0 ->
                 word_at (validators (replay txs s)) k = word_at (validators s) k)
    /\ (forall k, word_at (disabledValidators s) k <> 0 ->
                 word_at (disabledValidators (replay txs s)) k <> 0).
Proof.
  induction txs as [|[who c] txs IH]; intros s; cbn [ACE.replay].
  - repeat split; auto. lia.
  - destruct (transact_frame who c s) as (H1 & H2 & H3 & H4).
    destruct (IH (transact (perform who c) s)) as (I1 & I2 & I3 & I4).
    repeat split.
    + congruence.
    + lia.
    + intros k Hk. rewrite I3; [apply H3; exact Hk|]. rewrite H3; exact Hk.
    + intros k Hk. apply I4, H4, Hk.
Qed.

(** *** Registration *)

(** C7. When the epoch field of the proof object exceeds [latestEpoch],
    [setProof] fails: for the owner with "the proof epoch cannot be bigger
    than the latest epoch" (EpochExceeded), for anybody else already at the
    owner check; in both cases no binding is stored, the storage is what it
    was.  So a [setProof] that succeeds had its epoch at most
    [latestEpoch]. *)
Theorem setProof_epoch_exceeded :
  forall (who : address) (p : uint24) (v : address) (s : storage),
    (latestEpoch s < proof_epoch p ->
     (isOwner who s = true ->
      run (setProof who p v) s
      = Reverted (Error "the proof epoch cannot be bigger than the latest epoch")
                 (mkMachine s []))
     /\ succeeds (run (setProof who p v) s) = false
     /\ transact (setProof who p v) s = s)
    /\ (succeeds (run (setProof who p v) s) = true ->
        proof_epoch p <= latestEpoch s).
Proof.
  intros who p v s. split.
  - intros Hlt. unfold transact. rewrite setProof_run. cbv zeta; simpl_storage.
    apply Z.leb_gt in Hlt. rewrite Hlt.
    destruct (isOwner who s); repeat split; auto; discriminate.
  - rewrite setProof_run. cbv zeta; simpl_storage.
    destruct (isOwner who s); [|discriminate].
    destruct (proof_epoch p <=? latestEpoch s) eqn:Hle; [|discriminate].
    intros _. apply Z.leb_le. exact Hle.
Qed.

(** C3, amended.  Write-once holds for a non-zero handle: after the owner's
    [setProof(p, h1)] with [h1] not the zero address has succeeded, the slot
    of [p] holds [h1]; a further [setProof(p, h2)] by the owner fails with
    "existing proofs cannot be modified" (AlreadyRegistered), whoever calls
    it the storage is unchanged; and after any history of transactions the
    slot still holds [h1] and the owner's [setProof(p, h2)] still fails the
    same way. *)
Theorem setProof_write_once :
  forall (who : address) (p : uint24) (h1 h2 : address) (s : storage) (m1 : machine),
    h1 <> 0 ->
    run (setProof who p h1) s = Returned tt m1 ->
    let slot := validators_offset (proof_epoch p) (proof_category p) (proof_id p) in
    word_at (validators (store m1)) slot = h1
    /\ (forall who2, transact (setProof who2 p h2) (store m1) = store m1)
    /\ (forall txs who2,
          let s2 := replay txs (store m1) in
          word_at (validators s2) slot = h1
          /\ (isOwner who2 s2 = true ->
              run (setProof who2 p h2) s2
              = Reverted (Error "existing proofs cannot be modified") (mkMachine s2 []))).
Proof.
  intros who p h1 h2 s m1 Hh1 Hrun slot.
  rewrite setProof_run in Hrun. cbv zeta in Hrun. fold slot in Hrun.
  destruct (isOwner who s); [|discriminate].
  destruct (proof_epoch p <=? latestEpoch s) eqn:Hle; [|discriminate].
  destruct (word_at (validators s) slot =? 0); [|discriminate].
  apply Returned_inj in Hrun. destruct Hrun as [_ Hm]. subst m1. simpl_storage.
  assert (Hbound : word_at (<[slot := h1]> (validators s)) slot = h1).
  { rewrite word_at_insert. destruct (decide _); [reflexivity|contradiction]. }
  assert (Hh1' : (h1 =? 0) = false) by (apply Z.eqb_neq; exact Hh1).
  split; [exact Hbound|]. split.
  - intros who2. unfold transact. rewrite setProof_run. cbv zeta. simpl_storage.
    fold slot. rewrite Hle, Hbound, Hh1'.
    destruct (isOwner who2 _); reflexivity.
  - intros txs who2.
    set (s1 := set_validators (<[slot := h1]> (validators s)) s).
    destruct (replay_frame txs s1) as (_ & Hep & Hval & _).
    assert (Hkept : word_at (validators (replay txs s1)) slot = h1).
    { rewrite Hval; unfold s1; simpl_storage; rewrite Hbound; [reflexivity|exact Hh1]. }
    cbv zeta. split; [exact Hkept|].
    intros Hown. rewrite setProof_run. cbv zeta. fold slot. rewrite Hown, Hkept, Hh1'.
    unfold s1 in Hep. simpl_storage. apply Z.leb_le in Hle.
    destruct (proof_epoch p <=? latestEpoch (replay txs s1)) eqn:Hle2; [reflexivity|].
    apply Z.leb_gt in Hle2. unfold s1 in Hle2. lia.
Qed.

(** C10. [setProof] does not look at the handle: for the owner, a proof
    object within the epoch and a free slot, [setProof(p, 0)] succeeds;
    afterwards [getValidatorAddress(p)] and [validateProof(p, ...)] still
    fail with "expected the validator address to exist" (UnknownValidator),
    and a later [setProof(p, h)] succeeds and binds [h]. *)
Theorem setProof_zero_handle :
  forall (who : address) (p : uint24) (h : address) (s : storage),
    uint24_range p ->
    isOwner who s = true ->
    proof_epoch p <= latestEpoch s ->
    word_at (validators s) p = 0 ->
    exists m1,
      run (setProof who p 0) s = Returned tt m1
      /\ run (getValidatorAddress p) (store m1)
         = Reverted (Error "expected the validator address to exist")
                    (mkMachine (store m1) [])
      /\ (forall caller sender data,
            run (validateProof caller p sender data) (store m1)
            = Reverted (Error "expected the validator address to exist")
                       (mkMachine (store m1) []))
      /\ exists m2,
          run (setProof who p h) (store m1) = Returned tt m2
          /\ word_at (validators (store m2)) p = h.
Proof.
  intros who p h s Hp Hown Hle Hfree.
  pose proof (validators_offset_components p Hp) as Hslot.
  apply Z.leb_le in Hle.
  assert (Hz : word_at (<[p := 0]> (validators s)) p = 0).
  { rewrite word_at_insert. destruct (decide _); [reflexivity|contradiction]. }
  eexists. split.
  { rewrite setProof_run. cbv zeta. rewrite Hslot, Hown, Hle, Hfree. reflexivity. }
  simpl_storage. split; [|split].
  - unfold run. rewrite getValidatorAddress_run. simpl_storage. rewrite Hz. reflexivity.
  - intros caller sender data. rewrite validateProof_run. cbv zeta. simpl_storage.
    rewrite Hz. reflexivity.
  - eexists. split.
    + rewrite setProof_run. cbv zeta. rewrite Hslot. unfold isOwner in *.
      simpl_storage. rewrite Hown, Hle, Hz. reflexivity.
    + simpl_storage. rewrite word_at_insert.
      destruct (decide _); [reflexivity|contradiction].
Qed.

(** *** The epoch counter *)

(** C8, amended.  [latestEpoch] is a [uint8].  Below 255 the owner's
    [incrementLatestEpoch] succeeds, adds exactly 1 and changes nothing
    else; at 255 it fails inside [SafeMath8.add] and leaves the storage as
    it was; a caller who is not the owner fails with "only the owner can
    update the latest epoch" (Unauthorized). *)
Theorem incrementLatestEpoch_bounded :
  forall (who : address) (s : storage),
    0 <= latestEpoch s <= 255 ->
    (isOwner who s = true -> latestEpoch s < 255 ->
     exists m,
       run (incrementLatestEpoch who) s = Returned tt m
       /\ store m = set_latestEpoch (latestEpoch s + 1) s)
    /\ (isOwner who s = true -> latestEpoch s = 255 ->
        run (incrementLatestEpoch who) s
        = Reverted (LibraryRevert "SafeMath8.add") (mkMachine s [])
        /\ transact (incrementLatestEpoch who) s = s)
    /\ (isOwner who s = false ->
        run (incrementLatestEpoch who) s
        = Reverted (Error "only the owner can update the latest epoch") (mkMachine s [])).
Proof.
  intros who s Hrange. split; [|split].
  - intros Hown Hlt. rewrite incrementLatestEpoch_run, Hown.
    rewrite Z.mod_small by lia.
    destruct (latestEpoch s <=? latestEpoch s + 1) eqn:Hle.
    + eexists. split; reflexivity.
    + apply Z.leb_gt in Hle. lia.
  - intros Hown Hmax. unfold transact. rewrite incrementLatestEpoch_run, Hown, Hmax.
    split; reflexivity.
  - intros Hown. rewrite incrementLatestEpoch_run, Hown. reflexivity.
Qed.

(** *** The ledger *)

(** C9. For a proof object whose category is not [BALANCED] a successful
    [validateProof] writes nothing, however many sub-outputs the validator
    returned: the storage is the one of before the call, no write is in the
    trace and every ledger record reads as before. *)
Theorem validateProof_unbalanced_writes_nothing :
  forall (who : address) (p : uint24) (sender : address) (data : bytes)
         (s : storage) (outs : proofOutputs) (m : machine),
    proof_category p <> BALANCED ->
    run (validateProof who p sender data) s = Returned outs m ->
    store m = s
    /\ Forall (fun e => ~ is_sstore e) (trace m)
    /\ (forall k, entry_at (validatedProofs (store m)) k = entry_at (validatedProofs s) k).
Proof.
  intros who p sender data s outs m Hcat Hrun.
  rewrite validateProof_run in Hrun. cbv zeta in Hrun.
  destruct (word_at (validators s) p =? 0); [discriminate|].
  destruct (word_at (disabledValidators s) p =? 0); [|discriminate].
  destruct (staticcall _ data sender _) as [outs'|]; [|discriminate].
  apply Z.eqb_neq in Hcat. unfold proof_category, getProofComponents in Hcat.
  rewrite Hcat in Hrun. apply Returned_inj in Hrun. destruct Hrun as [_ Hm].
  subst m. simpl_storage. repeat split.
  constructor; [intros []|constructor].
Qed.

(** C5, amended.  After a successful [validateProof] on a [BALANCED] proof
    object every sub-output of the returned blob has its record set, under
    the key made of its fingerprint, the proof object and the caller of
    [validateProof] (msg.sender); the [_sender] argument only travels to
    the validator.  No other record changes and nothing but the ledger is
    written. *)
Theorem validateProof_records_for_caller :
  forall (who : address) (p : uint24) (sender : address) (data : bytes)
         (s : storage) (outs : proofOutputs) (m : machine),
    proof_category p = BALANCED ->
    run (validateProof who p sender data) s = Returned outs m ->
    store m = assign_all true (ledger_keys who p outs) s
    /\ (forall o, o ∈ outs ->
                 entry_at (validatedProofs (store m)) (key (fingerprint o) p who) = true)
    /\ (forall k, k ∉ ledger_keys who p outs ->
                 entry_at (validatedProofs (store m)) k = entry_at (validatedProofs s) k).
Proof.
  intros who p sender data s outs m Hcat Hrun.
  rewrite validateProof_run in Hrun. cbv zeta in Hrun.
  destruct (word_at (validators s) p =? 0); [discriminate|].
  destruct (word_at (disabledValidators s) p =? 0); [|discriminate].
  destruct (staticcall _ data sender _) as [outs'|]; [|discriminate].
  apply Z.eqb_eq in Hcat. unfold proof_category, getProofComponents in Hcat.
  rewrite Hcat in Hrun. apply Returned_inj in Hrun. destruct Hrun as [Ho Hm].
  subst m outs'. simpl_storage. split; [reflexivity|]. split.
  - intros o Ho. rewrite assign_all_entry.
    destruct (decide _) as [_|Hout]; [reflexivity|].
    exfalso. apply Hout. unfold ACE.ledger_keys.
    apply list_elem_of_fmap. exists o. split; [reflexivity|exact Ho].
  - intros k Hk. rewrite assign_all_entry.
    destruct (decide _) as [Hin|_]; [contradiction|reflexivity].
Qed.

(** C6, amended.  [clearProofByHashes] succeeds exactly when every listed
    fingerprint is non-zero, its record under (fingerprint, proof object,
    caller) is set, and no key is listed twice.  A call that fails clears
    nothing.  After a call that succeeds every listed record is unset, the
    others are as before, and clearing any of the listed fingerprints again
    fails with "can only clear previously validated proofs"
    (NotPreviouslyValidated). *)
Theorem clearProofByHashes_all_or_nothing :
  forall (who : address) (p : uint24) (hs : list bytes32) (s : storage),
    (succeeds (run (clearProofByHashes who p hs) s) = true <->
     Forall (fun h => h <> 0) hs
     /\ Forall (fun h => entry_at (validatedProofs s) (key h p who) = true) hs
     /\ NoDup (clear_keys who p hs))
    /\ (succeeds (run (clearProofByHashes who p hs) s) = false ->
        transact (clearProofByHashes who p hs) s = s)
    /\ (succeeds (run (clearProofByHashes who p hs) s) = true ->
        let s' := transact (clearProofByHashes who p hs) s in
        (forall h, h ∈ hs -> entry_at (validatedProofs s') (key h p who) = false)
        /\ (forall k, k ∉ clear_keys who p hs ->
                     entry_at (validatedProofs s') k = entry_at (validatedProofs s) k)
        /\ (forall h, h ∈ hs ->
                     run (clearProofByHashes who p [h]) s'
                     = Reverted (Error "can only clear previously validated proofs")
                                (mkMachine s' []))).
Proof.
  intros who p hs s.
  assert (Hfwd : succeeds (run (clearProofByHashes who p hs) s) = true ->
                 Forall (fun h => h <> 0) hs
                 /\ Forall (fun h => entry_at (validatedProofs s) (key h p who) = true) hs
                 /\ NoDup (clear_keys who p hs)).
  { unfold run. rewrite clearProofByHashes_each.
    destruct (each _ hs _) as [u m|r m] eqn:Hrun; [|discriminate].
    intros _. apply clear_each_inv in Hrun. exact Hrun. }
  split; [|split].
  - split; [exact Hfwd|].
    intros (Hnz & Hset & Hnd). unfold run. rewrite clearProofByHashes_each.
    rewrite (clear_each_ok who p hs (mkMachine s []) Hnz Hset Hnd). reflexivity.
  - unfold transact. destruct (run _ s); [discriminate|reflexivity].
  - intros Hok. destruct (Hfwd Hok) as (Hnz & Hset & Hnd).
    assert (Hpost : transact (clearProofByHashes who p hs) s
                    = assign_all false (clear_keys who p hs) s).
    { unfold transact, run. rewrite clearProofByHashes_each.
      rewrite (clear_each_ok who p hs (mkMachine s []) Hnz Hset Hnd). reflexivity. }
    cbv zeta. rewrite Hpost.
    assert (Hcleared : forall h, h ∈ hs ->
              entry_at (validatedProofs (assign_all false (clear_keys who p hs) s))
                       (key h p who) = false).
    { intros h Hh. rewrite assign_all_entry.
      destruct (decide _) as [_|Hout]; [reflexivity|].
      exfalso. apply Hout. unfold ACE.clear_keys.
      apply list_elem_of_fmap. exists h. split; [reflexivity|exact Hh]. }
    split; [exact Hcleared|]. split.
    + intros k Hk. rewrite assign_all_entry.
      destruct (decide _) as [Hin|_]; [contradiction|reflexivity].
    + intros h Hh. unfold run. rewrite clearProofByHashes_each.
      cbn [each]. unfold bind. rewrite clear_one_run. simpl_storage.
      rewrite (Hcleared h Hh).
      rewrite Forall_forall in Hnz. specialize (Hnz h Hh).
      apply Z.eqb_neq in Hnz. rewrite Hnz. reflexivity.
Qed.

(** C4, amended.  Dispatch, consultation and clearing, for the caller of
    [validateProof]: let the proof object be [BALANCED] and resolve to a
    validator ([getValidatorAddress] returns it), and let this validator
    return the two sub-outputs [o1] and [o2], whose fingerprints have
    different ledger keys, the first fingerprint being non-zero.  Then
    [validateProof] succeeds for caller
    [who]; [validateProofByHash] with [who] as sender answers true for both
    fingerprints; [clearProofByHashes] of the first fingerprint by [who]
    succeeds, after which [validateProofByHash] answers false for the first
    and still true for the second. *)
Theorem dispatch_consult_clear :
  forall (who : address) (p : uint24) (sender : address) (data : bytes)
         (s : storage) (v : address) (o1 o2 : bytes),
    proof_category p = BALANCED ->
    run (getValidatorAddress p) s = Returned v (mkMachine s []) ->
    staticcall v data sender (commonReferenceString s) = Some [o1; o2] ->
    fingerprint o1 <> 0 ->
    key (fingerprint o1) p who <> key (fingerprint o2) p who ->
    exists m1,
      run (validateProof who p sender data) s = Returned [o1; o2] m1
      /\ run (validateProofByHash p (fingerprint o1) who) (store m1)
         = Returned true (mkMachine (store m1) [])
      /\ run (validateProofByHash p (fingerprint o2) who) (store m1)
         = Returned true (mkMachine (store m1) [])
      /\ exists m2,
          run (clearProofByHashes who p [fingerprint o1]) (store m1) = Returned tt m2
          /\ run (validateProofByHash p (fingerprint o1) who) (store m2)
             = Returned false (mkMachine (store m2) [])
          /\ run (validateProofByHash p (fingerprint o2) who) (store m2)
             = Returned true (mkMachine (store m2) []).
Proof.
  intros who p sender data s v o1 o2 Hcat Hres Hcall Hfp Hkeys.
  destruct (getValidatorAddress_returned p s v _ Hres) as (Hv & Hbound & Hactive).
  subst v.
  set (k1 := key (fingerprint o1) p who) in *.
  set (k2 := key (fingerprint o2) p who) in *.
  set (s1 := assign_all true [k1; k2] s).
  assert (Hd1 : word_at (disabledValidators s1) p = 0).
  { unfold s1. destruct (assign_all_frame true [k1; k2] s) as (_ & _ & _ & H & _).
    rewrite H. exact Hactive. }
  assert (H1 : entry_at (validatedProofs s1) k1 = true).
  { unfold s1. rewrite assign_all_entry.
    destruct (decide _) as [_|Hout]; [reflexivity|]. exfalso. apply Hout. left. }
  assert (H2 : entry_at (validatedProofs s1) k2 = true).
  { unfold s1. rewrite assign_all_entry.
    destruct (decide _) as [_|Hout]; [reflexivity|]. exfalso. apply Hout. right. left. }
  set (s2 := set_validatedProofs (<[k1 := false]> (validatedProofs s1)) s1).
  exists (mkMachine s1 (rev (map (Ev_sstore "validatedProofs") [k1; k2])
                          ++ [Ev_staticcall (word_at (validators s) p) s])).
  simpl_storage. split; [|split; [|split]].
  - rewrite validateProof_run. cbv zeta.
    apply Z.eqb_neq in Hbound. rewrite Hbound.
    apply Z.eqb_eq in Hactive. rewrite Hactive. rewrite Hcall.
    apply Z.eqb_eq in Hcat. unfold proof_category, getProofComponents in Hcat.
    rewrite Hcat. reflexivity.
  - rewrite validateProofByHash_run, Hd1. fold k1. rewrite H1. reflexivity.
  - rewrite validateProofByHash_run, Hd1. fold k2. rewrite H2. reflexivity.
  - exists (mkMachine s2 [Ev_sstore "validatedProofs" k1]). simpl_storage.
    split; [|split].
    + unfold run. rewrite clearProofByHashes_each. cbn [each]. unfold bind.
      rewrite clear_one_run. simpl_storage. fold k1. rewrite H1.
      apply Z.eqb_neq in Hfp. rewrite Hfp. reflexivity.
    + rewrite validateProofByHash_run. unfold s2 at 1 2. simpl_storage.
      rewrite Hd1. fold k1. rewrite entry_at_insert.
      destruct (decide _); [reflexivity|contradiction].
    + rewrite validateProofByHash_run. unfold s2 at 1 2. simpl_storage.
      rewrite Hd1. fold k2. rewrite entry_at_insert.
      destruct (decide _); [contradiction|]. rewrite H2. reflexivity.
Qed.

(** *** Revocation *)

(** The flag that [invalidateProof] sets for a proof object [p] lies in the
    word at offset [p / 32] of [disabledValidators]. *)
Lemma disabledValidators_offset_components (p : uint24) :
  uint24_range p ->
  disabledValidators_offset (proof_epoch p) (proof_category p) (proof_id p) = p / 32.
Proof.
  intros Hp. pose proof (validators_offset_components p Hp) as Hslot.
  unfold disabledValidators_offset. unfold validators_offset in Hslot.
  assert (He : 0 <= proof_epoch p < 256)
    by (unfold proof_epoch, getProofComponents; rewrite land_0xff;
        apply Z.mod_pos_bound; lia).
  assert (Hc : 0 <= proof_category p < 256)
    by (unfold proof_category, getProofComponents; rewrite land_0xff;
        apply Z.mod_pos_bound; lia).
  assert (Hi : 0 <= proof_id p < 256)
    by (unfold proof_id, getProofComponents; rewrite land_0xff;
        apply Z.mod_pos_bound; lia).
  rewrite <- Hslot at 4.
  change 0x10000 with (0x800 * 32). change 0x100 with (8 * 32).
  replace (proof_epoch p * (0x800 * 32) + proof_category p * (8 * 32) + proof_id p)
    with (proof_id p + (proof_epoch p * 0x800 + proof_category p * 8) * 32) by lia.
  rewrite Z.div_add by lia. lia.
Qed.

(** The dispatcher reads the word at offset [p], [invalidateProof] writes
    the one at offset [p / 32]: for every proof object but 0, bound and not
    seen as disabled, the owner's [invalidateProof] succeeds, the flag of
    the proof object reads true through the getter, and
    [getValidatorAddress] goes on returning the validator. *)
Lemma invalidateProof_not_seen (who : address) (p : uint24) (s : storage) :
  uint24_range p -> p <> 0 ->
  isOwner who s = true ->
  word_at (validators s) p <> 0 ->
  word_at (disabledValidators s) p = 0 ->
  exists m,
    run (invalidateProof who p) s = Returned tt m
    /\ run (getValidatorAddress p) (store m)
       = Returned (word_at (validators s) p) (mkMachine (store m) []).
Proof.
  intros Hp Hnz Hown Hbound Hactive.
  pose proof (validators_offset_components p Hp) as Hslot.
  pose proof (disabledValidators_offset_components p Hp) as Hflag.
  eexists. split.
  - rewrite invalidateProof_run. cbv zeta. rewrite Hown, Hslot, Hflag.
    apply Z.eqb_neq in Hbound. rewrite Hbound. reflexivity.
  - unfold run. rewrite getValidatorAddress_run. simpl_storage.
    apply Z.eqb_neq in Hbound. rewrite Hbound.
    rewrite word_at_insert. destruct (decide _) as [Heq|_].
    + exfalso. unfold uint24_range in Hp.
      pose proof (Z.div_lt p 32 ltac:(lia) ltac:(lia)). lia.
    + rewrite Hactive. reflexivity.
Qed.

End Properties.

(** ** The engine on examples *)

Example registered_bindings :
  word_at (validators Stub.registered) Stub.JOIN_SPLIT = Stub.pair
  /\ word_at (validators Stub.registered) Stub.UTILITY_1 = Stub.pair
  /\ latestEpoch Stub.registered = 1.
Proof. vm_compute. repeat split. Qed.

Example validated_ledger :
  entry_at (validatedProofs Stub.validated) (Stub.key Stub.fp1 Stub.JOIN_SPLIT Stub.dapp) = true
  /\ entry_at (validatedProofs Stub.validated) (Stub.key Stub.fp2 Stub.JOIN_SPLIT Stub.dapp) = true
  /\ entry_at (validatedProofs Stub.validated) (Stub.key Stub.fp1 Stub.JOIN_SPLIT Stub.alice) = false.
Proof. vm_compute. repeat split. Qed.

Example last_epoch_is_255 : latestEpoch Stub.last_epoch = 255.
Proof. vm_compute. reflexivity. Qed.

(** ** Instances of the theorems *)

(** C1 at work: the validator rejects empty proof data, an unknown
    fingerprint cannot be cleared, and a validation that goes through calls
    the validator before it writes. *)
Lemma failed_calls_change_nothing_witness :
  transact (Stub.validateProof Stub.dapp Stub.JOIN_SPLIT Stub.alice []) Stub.registered
  = Stub.registered
  /\ transact (Stub.clearProofByHashes Stub.dapp Stub.JOIN_SPLIT [5]) Stub.registered
     = Stub.registered
  /\ exists callee writes,
      trace (mkMachine Stub.validated
               [Ev_sstore "validatedProofs" (Stub.key Stub.fp2 Stub.JOIN_SPLIT Stub.dapp);
                Ev_sstore "validatedProofs" (Stub.key Stub.fp1 Stub.JOIN_SPLIT Stub.dapp);
                Ev_staticcall Stub.pair Stub.registered])
      = writes ++ [Ev_staticcall callee Stub.registered]
      /\ Forall is_sstore writes
      /\ Stub.staticcall callee Stub.data Stub.alice
           (commonReferenceString Stub.registered)
         = Some [Stub.data; be_bytes 20 Stub.alice].
Proof.
  split; [|split].
  - apply (proj1 (failed_calls_change_nothing Stub.keccak256 Stub.staticcall
                    Stub.BALANCED Stub.dapp Stub.JOIN_SPLIT Stub.alice [] []
                    Stub.registered)
             (RevertData 400)
             (mkMachine Stub.registered [Ev_staticcall Stub.pair Stub.registered])).
    vm_compute. reflexivity.
  - apply (proj1 (proj2 (failed_calls_change_nothing Stub.keccak256 Stub.staticcall
                    Stub.BALANCED Stub.dapp Stub.JOIN_SPLIT Stub.alice [] [5]
                    Stub.registered))
             (Error "can only clear previously validated proofs")
             (mkMachine Stub.registered [])).
    vm_compute. reflexivity.
  - apply (proj2 (proj2 (failed_calls_change_nothing Stub.keccak256 Stub.staticcall
                    Stub.BALANCED Stub.dapp Stub.JOIN_SPLIT Stub.alice Stub.data []
                    Stub.registered))
             [Stub.data; be_bytes 20 Stub.alice]).
    vm_compute. reflexivity.
Defined.

(** C7 at work: on a fresh engine ([latestEpoch = 1]) a proof object of
    epoch 5 is refused, one of epoch 1 is accepted. *)
Lemma setProof_epoch_exceeded_witness :
  run (setProof Stub.owner Stub.EPOCH_5 Stub.pair) (deployed Stub.owner)
  = Reverted (Error "the proof epoch cannot be bigger than the latest epoch")
             (mkMachine (deployed Stub.owner) [])
  /\ proof_epoch Stub.JOIN_SPLIT <= latestEpoch (deployed Stub.owner).
Proof.
  split.
  - apply (proj1 (setProof_epoch_exceeded Stub.owner Stub.EPOCH_5 Stub.pair
                    (deployed Stub.owner))).
    + vm_compute. reflexivity.
    + vm_compute. reflexivity.
  - apply (proj2 (setProof_epoch_exceeded Stub.owner Stub.JOIN_SPLIT Stub.pair
                    (deployed Stub.owner))).
    vm_compute. reflexivity.
Defined.

(** C3 at work: once [pair] is bound to [JOIN_SPLIT], neither the owner
    nor [alice] can bind [echo] there, at once or after other
    transactions. *)
Lemma setProof_write_once_witness :
  Stub.pair <> 0
  /\ exists m1,
      run (setProof Stub.owner Stub.JOIN_SPLIT Stub.pair) (deployed Stub.owner)
      = Returned tt m1
      /\ transact (setProof Stub.alice Stub.JOIN_SPLIT Stub.echo) (store m1) = store m1
      /\ word_at (validators
                    (Stub.replay [(Stub.owner, IncrementLatestEpoch);
                                  (Stub.owner, SetProof Stub.JOIN_SPLIT Stub.echo)]
                                 (store m1)))
                 (validators_offset (proof_epoch Stub.JOIN_SPLIT)
                                    (proof_category Stub.JOIN_SPLIT)
                                    (proof_id Stub.JOIN_SPLIT))
         = Stub.pair.
Proof.
  assert (Hnz : Stub.pair <> 0) by (vm_compute; discriminate).
  assert (Hrun : run (setProof Stub.owner Stub.JOIN_SPLIT Stub.pair) (deployed Stub.owner)
                 = Returned tt
                     (mkMachine
                        (transact (setProof Stub.owner Stub.JOIN_SPLIT Stub.pair)
                                  (deployed Stub.owner))
                        [Ev_emit "SetProof" [1; 1; 1; Stub.pair];
                         Ev_sstore "validators" Stub.JOIN_SPLIT]))
    by (vm_compute; reflexivity).
  split; [exact Hnz|]. eexists. split; [exact Hrun|].
  destruct (setProof_write_once Stub.keccak256 Stub.staticcall Stub.BALANCED
              Stub.owner Stub.JOIN_SPLIT Stub.pair Stub.echo (deployed Stub.owner)
              _ Hnz Hrun) as (_ & Hsame & Hlater).
  split.
  - exact (Hsame Stub.alice).
  - exact (proj1 (Hlater [(Stub.owner, IncrementLatestEpoch);
                          (Stub.owner, SetProof Stub.JOIN_SPLIT Stub.echo)]
                         Stub.owner)).
Defined.

(** C3 as stated fails for the zero handle: after [setProof(p, 0)] a second
    [setProof(p, pair)] goes through and the slot holds [pair]. *)
Lemma setProof_zero_then_overwritten :
  let s1 := transact (setProof Stub.owner Stub.JOIN_SPLIT 0) (deployed Stub.owner) in
  succeeds (run (setProof Stub.owner Stub.JOIN_SPLIT 0) (deployed Stub.owner)) = true
  /\ succeeds (run (setProof Stub.owner Stub.JOIN_SPLIT Stub.pair) s1) = true
  /\ word_at (validators (transact (setProof Stub.owner Stub.JOIN_SPLIT Stub.pair) s1))
             Stub.JOIN_SPLIT = Stub.pair
  /\ Stub.pair <> 0.
Proof. vm_compute. repeat split. discriminate. Qed.

(** C10 at work on a fresh engine. *)
Lemma setProof_zero_handle_witness :
  exists m1,
    run (setProof Stub.owner Stub.JOIN_SPLIT 0) (deployed Stub.owner) = Returned tt m1
    /\ run (getValidatorAddress Stub.JOIN_SPLIT) (store m1)
       = Reverted (Error "expected the validator address to exist")
                  (mkMachine (store m1) [])
    /\ (forall caller sender data,
          run (Stub.validateProof caller Stub.JOIN_SPLIT sender data) (store m1)
          = Reverted (Error "expected the validator address to exist")
                     (mkMachine (store m1) []))
    /\ exists m2,
        run (setProof Stub.owner Stub.JOIN_SPLIT Stub.pair) (store m1) = Returned tt m2
        /\ word_at (validators (store m2)) Stub.JOIN_SPLIT = Stub.pair.
Proof.
  apply (setProof_zero_handle Stub.keccak256 Stub.staticcall Stub.BALANCED
           Stub.owner Stub.JOIN_SPLIT Stub.pair (deployed Stub.owner)).
  - unfold uint24_range, Stub.JOIN_SPLIT. lia.
  - vm_compute. reflexivity.
  - vm_compute. discriminate.
  - vm_compute. reflexivity.
Defined.

(** C8 at work: the first increment of a fresh engine, the increment at
    255, and [alice] trying. *)
Lemma incrementLatestEpoch_bounded_witness :
  (exists m,
      run (incrementLatestEpoch Stub.owner) (deployed Stub.owner) = Returned tt m
      /\ store m = set_latestEpoch (latestEpoch (deployed Stub.owner) + 1)
                                   (deployed Stub.owner))
  /\ transact (incrementLatestEpoch Stub.owner) Stub.last_epoch = Stub.last_epoch
  /\ run (incrementLatestEpoch Stub.alice) (deployed Stub.owner)
     = Reverted (Error "only the owner can update the latest epoch")
                (mkMachine (deployed Stub.owner) []).
Proof.
  assert (H1 : 0 <= latestEpoch (deployed Stub.owner) <= 255) by (vm_compute; split; discriminate).
  assert (H2 : 0 <= latestEpoch Stub.last_epoch <= 255) by (vm_compute; split; discriminate).
  split; [|split].
  - apply (proj1 (incrementLatestEpoch_bounded Stub.owner (deployed Stub.owner) H1)).
    + vm_compute. reflexivity.
    + vm_compute. reflexivity.
  - apply (proj1 (proj2 (incrementLatestEpoch_bounded Stub.owner Stub.last_epoch H2))).
    + vm_compute. reflexivity.
    + vm_compute. reflexivity.
  - apply (proj2 (proj2 (incrementLatestEpoch_bounded Stub.alice (deployed Stub.owner) H1))).
    vm_compute. reflexivity.
Defined.

(** C8 as stated fails at the top of the range: after 254 increments the
    owner's next [incrementLatestEpoch] reverts and the epoch stays 255. *)
Lemma incrementLatestEpoch_fails_at_255 :
  isOwner Stub.owner Stub.last_epoch = true
  /\ run (incrementLatestEpoch Stub.owner) Stub.last_epoch
     = Reverted (LibraryRevert "SafeMath8.add") (mkMachine Stub.last_epoch [])
  /\ latestEpoch (transact (incrementLatestEpoch Stub.owner) Stub.last_epoch)
     <> latestEpoch Stub.last_epoch + 1.
Proof. vm_compute. repeat split. discriminate. Qed.

(** C9 at work: [UTILITY_1] is bound to [pair], which returns two
    sub-outputs; the validation succeeds and the storage is untouched. *)
Lemma validateProof_unbalanced_writes_nothing_witness :
  proof_category Stub.UTILITY_1 <> Stub.BALANCED
  /\ run (Stub.validateProof Stub.dapp Stub.UTILITY_1 Stub.alice Stub.data) Stub.registered
     = Returned [Stub.data; be_bytes 20 Stub.alice]
                (mkMachine Stub.registered [Ev_staticcall Stub.pair Stub.registered])
  /\ transact (Stub.validateProof Stub.dapp Stub.UTILITY_1 Stub.alice Stub.data)
              Stub.registered
     = Stub.registered.
Proof.
  assert (Hcat : proof_category Stub.UTILITY_1 <> Stub.BALANCED)
    by (vm_compute; discriminate).
  assert (Hrun : run (Stub.validateProof Stub.dapp Stub.UTILITY_1 Stub.alice Stub.data)
                     Stub.registered
                 = Returned [Stub.data; be_bytes 20 Stub.alice]
                     (mkMachine Stub.registered [Ev_staticcall Stub.pair Stub.registered]))
    by (vm_compute; reflexivity).
  split; [exact Hcat|]. split; [exact Hrun|].
  unfold transact. rewrite Hrun.
  exact (proj1 (validateProof_unbalanced_writes_nothing Stub.keccak256 Stub.staticcall
                  Stub.BALANCED Stub.dapp Stub.UTILITY_1 Stub.alice Stub.data
                  Stub.registered _ _ Hcat Hrun)).
Defined.

(** C5 at work: [dapp] validates with [alice] as [_sender]; both
    fingerprints are recorded for [dapp]. *)
Lemma validateProof_records_for_caller_witness :
  proof_category Stub.JOIN_SPLIT = Stub.BALANCED
  /\ forall o, o ∈ [Stub.data; be_bytes 20 Stub.alice] ->
       entry_at (validatedProofs Stub.validated)
                (Stub.key (Stub.fingerprint o) Stub.JOIN_SPLIT Stub.dapp) = true.
Proof.
  assert (Hcat : proof_category Stub.JOIN_SPLIT = Stub.BALANCED)
    by (vm_compute; reflexivity).
  assert (Hrun : run (Stub.validateProof Stub.dapp Stub.JOIN_SPLIT Stub.alice Stub.data)
                     Stub.registered
                 = Returned [Stub.data; be_bytes 20 Stub.alice]
                     (mkMachine Stub.validated
                        [Ev_sstore "validatedProofs"
                           (Stub.key Stub.fp2 Stub.JOIN_SPLIT Stub.dapp);
                         Ev_sstore "validatedProofs"
                           (Stub.key Stub.fp1 Stub.JOIN_SPLIT Stub.dapp);
                         Ev_staticcall Stub.pair Stub.registered]))
    by (vm_compute; reflexivity).
  split; [exact Hcat|].
  exact (proj1 (proj2 (validateProof_records_for_caller Stub.keccak256 Stub.staticcall
                         Stub.BALANCED Stub.dapp Stub.JOIN_SPLIT Stub.alice Stub.data
                         Stub.registered _ _ Hcat Hrun))).
Defined.

(** C5 as stated fails when the caller is not the [_sender] it names:
    [dapp] validates with [alice] as [_sender]; the validation succeeds, yet
    the record keyed by (fingerprint, proof object, [alice]) is not set. *)
Lemma validateProof_not_keyed_by_sender_argument :
  proof_category Stub.JOIN_SPLIT = Stub.BALANCED
  /\ succeeds (run (Stub.validateProof Stub.dapp Stub.JOIN_SPLIT Stub.alice Stub.data)
                   Stub.registered) = true
  /\ entry_at (validatedProofs Stub.validated)
              (Stub.key Stub.fp1 Stub.JOIN_SPLIT Stub.alice) = false
  /\ entry_at (validatedProofs Stub.validated)
              (Stub.key Stub.fp1 Stub.JOIN_SPLIT Stub.dapp) = true.
Proof. vm_compute. repeat split. Qed.

(** C6 at work: [dapp] clears its first fingerprint. *)
Lemma clearProofByHashes_all_or_nothing_witness :
  succeeds (run (Stub.clearProofByHashes Stub.dapp Stub.JOIN_SPLIT [Stub.fp1])
                Stub.validated) = true
  /\ transact (Stub.clearProofByHashes Stub.alice Stub.JOIN_SPLIT [Stub.fp1]) Stub.validated
     = Stub.validated
  /\ run (Stub.clearProofByHashes Stub.dapp Stub.JOIN_SPLIT [Stub.fp1])
         (transact (Stub.clearProofByHashes Stub.dapp Stub.JOIN_SPLIT [Stub.fp1])
                   Stub.validated)
     = Reverted (Error "can only clear previously validated proofs")
         (mkMachine (transact (Stub.clearProofByHashes Stub.dapp Stub.JOIN_SPLIT [Stub.fp1])
                              Stub.validated) []).
Proof.
  assert (Hok : succeeds (run (Stub.clearProofByHashes Stub.dapp Stub.JOIN_SPLIT [Stub.fp1])
                              Stub.validated) = true) by (vm_compute; reflexivity).
  split; [exact Hok|]. split.
  - apply (proj1 (proj2 (clearProofByHashes_all_or_nothing Stub.keccak256
                           Stub.alice Stub.JOIN_SPLIT [Stub.fp1] Stub.validated))).
    vm_compute. reflexivity.
  - apply (proj2 (proj2 (clearProofByHashes_all_or_nothing Stub.keccak256
                           Stub.dapp Stub.JOIN_SPLIT [Stub.fp1] Stub.validated)) Hok).
    left.
Defined.

(** C6 as stated fails for a list that names a fingerprint twice: the
    fingerprint is non-zero and its record is set, and the call fails. *)
Lemma clearProofByHashes_listed_twice :
  Stub.fp1 <> 0
  /\ entry_at (validatedProofs Stub.validated)
              (Stub.key Stub.fp1 Stub.JOIN_SPLIT Stub.dapp) = true
  /\ run (Stub.clearProofByHashes Stub.dapp Stub.JOIN_SPLIT [Stub.fp1; Stub.fp1])
         Stub.validated
     = Reverted (Error "can only clear previously validated proofs")
         (mkMachine
            (transact (Stub.clearProofByHashes Stub.dapp Stub.JOIN_SPLIT [Stub.fp1])
                      Stub.validated)
            [Ev_sstore "validatedProofs" (Stub.key Stub.fp1 Stub.JOIN_SPLIT Stub.dapp)]).
Proof. vm_compute. repeat split. discriminate. Qed.

(** C4 at work, with [dapp] both validating and consulting. *)
Lemma dispatch_consult_clear_witness :
  exists m1,
    run (Stub.validateProof Stub.dapp Stub.JOIN_SPLIT Stub.alice Stub.data) Stub.registered
    = Returned [Stub.data; be_bytes 20 Stub.alice] m1
    /\ run (Stub.validateProofByHash Stub.JOIN_SPLIT Stub.fp1 Stub.dapp) (store m1)
       = Returned true (mkMachine (store m1) [])
    /\ run (Stub.validateProofByHash Stub.JOIN_SPLIT Stub.fp2 Stub.dapp) (store m1)
       = Returned true (mkMachine (store m1) [])
    /\ exists m2,
        run (Stub.clearProofByHashes Stub.dapp Stub.JOIN_SPLIT [Stub.fp1]) (store m1)
        = Returned tt m2
        /\ run (Stub.validateProofByHash Stub.JOIN_SPLIT Stub.fp1 Stub.dapp) (store m2)
           = Returned false (mkMachine (store m2) [])
        /\ run (Stub.validateProofByHash Stub.JOIN_SPLIT Stub.fp2 Stub.dapp) (store m2)
           = Returned true (mkMachine (store m2) []).
Proof.
  apply (dispatch_consult_clear Stub.keccak256 Stub.staticcall Stub.BALANCED
           Stub.dapp Stub.JOIN_SPLIT Stub.alice Stub.data Stub.registered
           Stub.pair Stub.data (be_bytes 20 Stub.alice)).
  - vm_compute. reflexivity.
  - vm_compute. reflexivity.
  - vm_compute. reflexivity.
  - vm_compute. discriminate.
  - vm_compute. discriminate.
Defined.

(** C4 as stated fails when the caller of [validateProof] is not the
    [_sender] it names: [dapp] validates with [alice] as [_sender], the
    validation succeeds with two sub-outputs, and [validateProofByHash]
    with [alice] as sender answers false for both fingerprints. *)
Lemma consult_for_sender_argument_fails :
  run (Stub.validateProof Stub.dapp Stub.JOIN_SPLIT Stub.alice Stub.data) Stub.registered
  = Returned [Stub.data; be_bytes 20 Stub.alice]
      (mkMachine Stub.validated
         [Ev_sstore "validatedProofs" (Stub.key Stub.fp2 Stub.JOIN_SPLIT Stub.dapp);
          Ev_sstore "validatedProofs" (Stub.key Stub.fp1 Stub.JOIN_SPLIT Stub.dapp);
          Ev_staticcall Stub.pair Stub.registered])
  /\ run (Stub.validateProofByHash Stub.JOIN_SPLIT Stub.fp1 Stub.alice) Stub.validated
     = Returned false (mkMachine Stub.validated [])
  /\ run (Stub.validateProofByHash Stub.JOIN_SPLIT Stub.fp2 Stub.alice) Stub.validated
     = Returned false (mkMachine Stub.validated []).
Proof. vm_compute. repeat split. Qed.

(** Why the two ledger keys have to differ: [twin] returns the same
    sub-output twice, so there is one fingerprint and one record, and
    clearing "the first" clears "the second". *)
Example equal_sub_outputs_share_a_record :
  let s1 := transact (Stub.validateProof Stub.dapp Stub.SWAP Stub.dapp Stub.data)
                     Stub.registered in
  let s2 := transact (Stub.clearProofByHashes Stub.dapp Stub.SWAP [Stub.fp1]) s1 in
  run (Stub.validateProof Stub.dapp Stub.SWAP Stub.dapp Stub.data) Stub.registered
  = Returned [Stub.data; Stub.data]
      (mkMachine s1
         [Ev_sstore "validatedProofs" (Stub.key Stub.fp1 Stub.SWAP Stub.dapp);
          Ev_sstore "validatedProofs" (Stub.key Stub.fp1 Stub.SWAP Stub.dapp);
          Ev_staticcall Stub.twin Stub.registered])
  /\ run (Stub.validateProofByHash Stub.SWAP Stub.fp1 Stub.dapp) s1
     = Returned true (mkMachine s1 [])
  /\ succeeds (run (Stub.clearProofByHashes Stub.dapp Stub.SWAP [Stub.fp1]) s1) = true
  /\ run (Stub.validateProofByHash Stub.SWAP Stub.fp1 Stub.dapp) s2
     = Returned false (mkMachine s2 []).
Proof. vm_compute. repeat split. Qed.

(** ** Revocation on an example *)

(** C2 on the engine of [Stub]: [JOIN_SPLIT] is bound to [pair] and [dapp]
    has had a proof validated.  The owner's [invalidateProof(JOIN_SPLIT)]
    succeeds, the binding is kept and the getter
    [disabledValidators(1, 1, 1)] reads true; yet [getValidatorAddress]
    still returns [pair], [validateProof] still succeeds and
    [validateProofByHash] still answers true, where all three should fail as
    disabled.  The flag is the byte 1 of the word at offset
    [JOIN_SPLIT / 32]; what fails from now on is the dispatch of the proof
    object numbered [JOIN_SPLIT / 32], which nobody invalidated. *)
Theorem invalidated_proof_still_dispatched :
  run (invalidateProof Stub.owner Stub.JOIN_SPLIT) Stub.validated
  = Returned tt (mkMachine Stub.invalidated
                   [Ev_sstore "disabledValidators" (Stub.JOIN_SPLIT / 32)])
  /\ word_at (validators Stub.invalidated) Stub.JOIN_SPLIT = Stub.pair
  /\ disabledValidators_getter 1 1 1 Stub.invalidated = true
  /\ run (getValidatorAddress Stub.JOIN_SPLIT) Stub.invalidated
     = Returned Stub.pair (mkMachine Stub.invalidated [])
  /\ succeeds (run (Stub.validateProof Stub.dapp Stub.JOIN_SPLIT Stub.alice Stub.data)
                   Stub.invalidated) = true
  /\ run (Stub.validateProofByHash Stub.JOIN_SPLIT Stub.fp1 Stub.dapp) Stub.invalidated
     = Returned true (mkMachine Stub.invalidated [])
  /\ Stub.SHADOWED = Stub.JOIN_SPLIT / 32
  /\ run (getValidatorAddress Stub.SHADOWED) Stub.validated
     = Returned Stub.pair (mkMachine Stub.validated [])
  /\ run (getValidatorAddress Stub.SHADOWED) Stub.invalidated
     = Reverted (Error "expected the validator address to not be disabled")
                (mkMachine Stub.invalidated []).
Proof. vm_compute. repeat split. Qed.

(** ** Further properties of the engine *)

(** *** Bytes of a storage word *)

Lemma testbit_0xff (k : Z) : Z.testbit 0xff k = (0 <=? k) && (k <? 8).
Proof. change 0xff with (Z.ones 8). apply Z.testbit_ones. lia. Qed.

Lemma testbit_1 (k : Z) : Z.testbit 1 k = (0 <=? k) && (k <? 1).
Proof. change (Z.testbit 1 k) with (Z.testbit (Z.ones 1) k). apply Z.testbit_ones. lia. Qed.

Lemma get_put_byte_same (w i : Z) : 0 <= i -> get_byte (put_byte w i 1) i = 1.
Proof.
  intros Hi. apply Z.bits_inj'. intros n Hn. unfold get_byte, put_byte.
  rewrite Z.land_spec, Z.shiftr_spec, Z.lor_spec, Z.ldiff_spec, !Z.shiftl_spec by lia.
  replace (n + 8 * i - 8 * i) with n by lia.
  rewrite !testbit_0xff, testbit_1.
  destruct (Z.leb_spec 0 n); destruct (Z.ltb_spec n 8); destruct (Z.ltb_spec n 1);
    simpl; rewrite ?andb_false_r, ?andb_true_r, ?orb_false_r; try reflexivity; lia.
Qed.

Lemma get_put_byte_other (w i j : Z) :
  0 <= i -> 0 <= j -> i <> j -> get_byte (put_byte w i 1) j = get_byte w j.
Proof.
  intros Hi Hj Hne. apply Z.bits_inj'. intros n Hn. unfold get_byte, put_byte.
  rewrite !Z.land_spec, !Z.shiftr_spec, Z.lor_spec, Z.ldiff_spec, !Z.shiftl_spec by lia.
  rewrite !testbit_0xff, testbit_1.
  destruct (Z.ltb_spec n 8); [|rewrite !andb_false_r; reflexivity].
  
  assert (Hout : (0 <=? n + 8 * j - 8 * i) && (n + 8 * j - 8 * i <? 8) = false).
  { destruct (Z.leb_spec 0 (n + 8 * j - 8 * i)); [|reflexivity].
    destruct (Z.ltb_spec (n + 8 * j - 8 * i) 8); [|reflexivity]. lia. }
  assert (Hout1 : (0 <=? n + 8 * j - 8 * i) && (n + 8 * j - 8 * i <? 1) = false).
  { destruct (Z.leb_spec 0 (n + 8 * j - 8 * i)); [|reflexivity].
    destruct (Z.ltb_spec (n + 8 * j - 8 * i) 1); [|reflexivity]. lia. }
  rewrite Hout, Hout1. simpl. rewrite orb_false_r, andb_true_r. reflexivity.
Qed.

(** A byte that is set stays set when a flag is written into the word. *)
Lemma get_put_byte_kept (w i j : Z) :
  0 <= i -> 0 <= j -> get_byte w j <> 0 -> get_byte (put_byte w i 1) j <> 0.
Proof.
  intros Hi Hj Hset. destruct (Z.eq_dec i j) as [->|Hne].
  - rewrite get_put_byte_same by exact Hj. discriminate.
  - rewrite get_put_byte_other by assumption. exact Hset.
Qed.

Lemma get_byte_0 (j : Z) : get_byte 0 j = 0.
Proof. unfold get_byte. rewrite Z.shiftr_0_l. reflexivity. Qed.

Lemma flag_slot_of_components (e c i : Z) :
  disabledValidators_offset e c i * 32 + disabledValidators_byte i
  = validators_offset e c i.
Proof.
  unfold disabledValidators_offset, disabledValidators_byte, validators_offset.
  pose proof (Z.div_mod i 32 ltac:(lia)). lia.
Qed.

Lemma disabledValidators_byte_range (i : Z) : 0 <= disabledValidators_byte i < 32.
Proof. unfold disabledValidators_byte. apply Z.mod_pos_bound. lia. Qed.

Lemma to_bool_true_iff (w : Z) : to_bool w = true <-> w <> 0.
Proof.
  unfold to_bool. destruct (Z.eqb_spec w 0); simpl; split; intros; congruence.
Qed.

Lemma storage_eq (s1 s2 : storage) :
  _owner s1 = _owner s2 ->
  commonReferenceString s1 = commonReferenceString s2 ->
  validators s1 = validators s2 ->
  disabledValidators s1 = disabledValidators s2 ->
  latestEpoch s1 = latestEpoch s2 ->
  validatedProofs s1 = validatedProofs s2 ->
  s1 = s2.
Proof. destruct s1, s2; cbn; intros; subst; reflexivity. Qed.

Lemma assign_all_lookup (v : bool) (keys : list Z) (s : storage) (k : Z) :
  validatedProofs (assign_all v keys s) !! k
  = if decide (k ∈ keys) then Some v else validatedProofs s !! k.
Proof.
  revert s. induction keys as [|k0 keys IH]; intros s.
  - cbn. destruct (decide (k ∈ [])) as [H|H]; [|reflexivity].
    apply elem_of_nil in H. destruct H.
  - change (assign_all v (k0 :: keys) s)
      with (assign_all v keys (set_validatedProofs (<[k0:=v]> (validatedProofs s)) s)).
    rewrite IH. simpl_storage. rewrite lookup_insert.
    destruct (decide (k ∈ keys)) as [Hin|Hin];
      destruct (decide (k ∈ k0 :: keys)) as [Hin'|Hin']; try reflexivity.
    + exfalso. apply Hin'. right. exact Hin.
    + destruct (decide _) as [Hk|Hk]; [reflexivity|].
      apply elem_of_cons in Hin'. destruct Hin' as [Hk'|Hk']; [|contradiction].
      exfalso. apply Hk. symmetry. exact Hk'.
    + destruct (decide _) as [Hk|Hk]; [|reflexivity].
      exfalso. apply Hin'. rewrite <- Hk. left.
Qed.

(** Assigning the same value to the same keys a second time changes
    nothing. *)
Lemma assign_all_twice (v : bool) (keys : list Z) (s : storage) :
  assign_all v keys (assign_all v keys s) = assign_all v keys s.
Proof.
  destruct (assign_all_frame v keys (assign_all v keys s)) as (H1 & H2 & H3 & H4 & H5).
  apply storage_eq; try assumption.
  apply map_eq. intros k. rewrite assign_all_lookup.
  destruct (decide (k ∈ keys)) as [Hin|Hin]; [|reflexivity].
  rewrite assign_all_lookup. destruct (decide (k ∈ keys)); [reflexivity|contradiction].
Qed.

Section Further.

Variable keccak256 : bytes -> bytes32.
Variable staticcall : address -> bytes -> address -> list bytes32 -> option proofOutputs.
Variable BALANCED : uint8.

Local Abbreviation validateProof := (ACE.validateProof keccak256 staticcall BALANCED).
Local Abbreviation clearProofByHashes := (ACE.clearProofByHashes keccak256).
Local Abbreviation validateProofByHash := (ACE.validateProofByHash keccak256).
Local Abbreviation key := (validatedProofs_key keccak256).
Local Abbreviation ledger_keys := (ACE.ledger_keys keccak256).
Local Abbreviation clear_keys := (ACE.clear_keys keccak256).
Local Abbreviation fingerprint := (ACE.fingerprint keccak256).
Local Abbreviation perform := (ACE.perform keccak256 staticcall BALANCED).
Local Abbreviation replay := (ACE.replay keccak256 staticcall BALANCED).

(** *** The common reference string *)

(** X1. The owner's [setCommonReferenceString] succeeds, replaces the six
    words wholesale and touches nothing else; [getCommonReferenceString]
    then returns what was set. *)
Theorem setCommonReferenceString_then_get :
  forall (who : address) (crs : list bytes32) (s : storage),
    isOwner who s = true ->
    exists m,
      run (setCommonReferenceString who crs) s = Returned tt m
      /\ store m = set_commonReferenceString crs s
      /\ run getCommonReferenceString (store m) = Returned crs (mkMachine (store m) []).
Proof.
  intros who crs s Hown. eexists. split; [|split].
  - rewrite setCommonReferenceString_run, Hown. reflexivity.
  - reflexivity.
  - reflexivity.
Qed.

(** *** Authorization *)

(** X2. For a caller who is not the owner each of the four administrative
    functions reverts at its first [require], each with its own message,
    before any write. *)
Theorem admin_calls_need_owner :
  forall (who : address) (p : uint24) (v : address) (crs : list bytes32) (s : storage),
    isOwner who s = false ->
    run (setProof who p v) s
    = Reverted (Error "only the owner can set a proof") (mkMachine s [])
    /\ run (invalidateProof who p) s
       = Reverted (Error "only the owner can invalidate a proof") (mkMachine s [])
    /\ run (incrementLatestEpoch who) s
       = Reverted (Error "only the owner can update the latest epoch") (mkMachine s [])
    /\ run (setCommonReferenceString who crs) s
       = Reverted (Error "only the owner can set the common reference string")
                  (mkMachine s []).
Proof.
  intros who p v crs s Hown.
  rewrite setProof_run, invalidateProof_run, incrementLatestEpoch_run,
    setCommonReferenceString_run. cbv zeta. rewrite Hown. repeat split.
Qed.

(** *** Invalidation, as the getters see it *)

(** X3. The owner's [invalidateProof] of a proof object whose slot in
    [validators] is bound succeeds: afterwards the getter
    [disabledValidators(epoch, category, id)] reads true for it, every flag
    that read true before still does, and nothing but [disabledValidators]
    has changed.  On a proof object that is not bound it reverts with "can
    only invalidate proofs that exist!" before any write. *)
Theorem invalidateProof_by_owner :
  forall (who : address) (p : uint24) (s : storage),
    isOwner who s = true ->
    (validators_getter (proof_epoch p) (proof_category p) (proof_id p) s <> 0 ->
     exists m,
       run (invalidateProof who p) s = Returned tt m
       /\ disabledValidators_getter (proof_epoch p) (proof_category p) (proof_id p)
                                    (store m) = true
       /\ (forall e c i, disabledValidators_getter e c i s = true ->
                         disabledValidators_getter e c i (store m) = true)
       /\ set_disabledValidators (disabledValidators s) (store m) = s)
    /\ (validators_getter (proof_epoch p) (proof_category p) (proof_id p) s = 0 ->
        run (invalidateProof who p) s
        = Reverted (Error "can only invalidate proofs that exist!") (mkMachine s [])).
Proof.
  intros who p s Hown. unfold validators_getter. split.
  - intros Hbound. eexists. split.
    { rewrite invalidateProof_run. cbv zeta. rewrite Hown.
      apply Z.eqb_neq in Hbound. rewrite Hbound. reflexivity. }
    simpl_storage. unfold disabledValidators_getter. simpl_storage. split; [|split].
    + rewrite word_at_insert. destruct (decide _) as [_|Hne]; [|contradiction].
      rewrite get_put_byte_same by apply disabledValidators_byte_range. reflexivity.
    + intros e c i Hset. apply to_bool_true_iff in Hset. apply to_bool_true_iff.
      rewrite word_at_insert. destruct (decide _) as [Heq|_]; [|exact Hset].
      rewrite Heq. apply get_put_byte_kept; try apply disabledValidators_byte_range.
      exact Hset.
    + destruct s; reflexivity.
  - intros Hfree. rewrite invalidateProof_run. cbv zeta. rewrite Hown, Hfree.
    reflexivity.
Qed.

(** *** What a transaction can do to the storage *)

(** The storage after a transaction is the one of before, or differs from
    it by one of five updates. *)
Lemma transact_cases (who : address) (c : call) (s : storage) :
  let s' := transact (perform who c) s in
  s' = s
  \/ (exists v keys, s' = assign_all v keys s)
  \/ (exists crs, s' = set_commonReferenceString crs s)
  \/ (exists e c i,
        word_at (validators s) (validators_offset e c i) <> 0
        /\ s' = set_disabledValidators
                  (<[disabledValidators_offset e c i :=
                       put_byte (word_at (disabledValidators s)
                                         (disabledValidators_offset e c i))
                                (disabledValidators_byte i) 1]>
                     (disabledValidators s)) s)
  \/ (exists slot v,
        word_at (validators s) slot = 0
        /\ s' = set_validators (<[slot := v]> (validators s)) s)
  \/ (latestEpoch s <= (latestEpoch s + 1) mod 256
      /\ s' = set_latestEpoch ((latestEpoch s + 1) mod 256) s).
Proof.
  destruct c as [p sender data|p hs|crs|p|p v|]; cbn [ACE.perform]; cbv zeta.
  - destruct (validateProof_post keccak256 staticcall BALANCED who p sender data s)
      as [E|[outs E]]; rewrite E; [left; reflexivity|].
    right; left. eexists _, _. reflexivity.
  - destruct (clearProofByHashes_post keccak256 who p hs s) as [E|E]; rewrite E;
      [left; reflexivity|].
    right; left. eexists _, _. reflexivity.
  - unfold transact. rewrite setCommonReferenceString_run.
    destruct (isOwner who s); simpl_storage; [|left; reflexivity].
    right; right; left. eexists. reflexivity.
  - unfold transact. rewrite invalidateProof_run. cbv zeta.
    destruct (isOwner who s); simpl_storage; [|left; reflexivity].
    destruct (word_at (validators s) _ =? 0) eqn:Hb; simpl_storage; [left; reflexivity|].
    right; right; right; left. apply Z.eqb_neq in Hb.
    eexists _, _, _. split; [exact Hb|reflexivity].
  - unfold transact. rewrite setProof_run. cbv zeta.
    destruct (isOwner who s); simpl_storage; [|left; reflexivity].
    destruct (proof_epoch p <=? latestEpoch s); simpl_storage; [|left; reflexivity].
    destruct (word_at (validators s) _ =? 0) eqn:Hb; simpl_storage; [|left; reflexivity].
    right; right; right; right; left. apply Z.eqb_eq in Hb.
    eexists _, _. split; [exact Hb|reflexivity].
  - unfold transact. rewrite incrementLatestEpoch_run.
    destruct (isOwner who s); simpl_storage; [|left; reflexivity].
    destruct (latestEpoch s <=? _) eqn:Hle; simpl_storage; [|left; reflexivity].
    right; right; right; right; right. apply Z.leb_le in Hle.
    split; [exact Hle|reflexivity].
Qed.

(** An invariant of single transactions is an invariant of histories. *)
Lemma replay_invariant (P : storage -> Prop) :
  (forall who c s, P s -> P (transact (perform who c) s)) ->
  forall txs s, P s -> P (replay txs s).
Proof.
  intros Hstep txs. induction txs as [|[who c] txs IH]; intros s Hs; cbn [ACE.replay].
  - exact Hs.
  - apply IH, Hstep, Hs.
Qed.

Lemma transact_flag_kept (who : address) (c : call) (s : storage) (o j : Z) :
  0 <= j ->
  get_byte (word_at (disabledValidators s) o) j <> 0 ->
  get_byte (word_at (disabledValidators (transact (perform who c) s)) o) j <> 0.
Proof.
  intros Hj Hset.
  destruct (transact_cases who c s)
    as [E|[(v & keys & E)|[(crs & E)|[(e & c' & i & Hb & E)|[(slot & v & Hb & E)|[Hle E]]]]]];
    rewrite E; simpl_storage; try exact Hset.
  - destruct (assign_all_frame v keys s) as (_ & _ & _ & H4 & _). rewrite H4. exact Hset.
  - rewrite word_at_insert. destruct (decide _) as [Heq|_]; [|exact Hset].
    rewrite Heq. apply get_put_byte_kept; [apply disabledValidators_byte_range|exact Hj|].
    exact Hset.
Qed.

Lemma transact_flags_bound (who : address) (c : call) (s : storage) :
  flags_bound s -> flags_bound (transact (perform who c) s).
Proof.
  intros Hinv.
  destruct (transact_cases who c s)
    as [E|[(v & keys & E)|[(crs & E)|[(e & c' & i & Hb & E)|[(slot & v & Hb & E)|[Hle E]]]]]];
    rewrite E; try exact Hinv.
  - destruct (assign_all_frame v keys s) as (_ & _ & H3 & H4 & _).
    unfold flags_bound. rewrite H3, H4. exact Hinv.
  - unfold flags_bound. simpl_storage. intros o j Hj Hset.
    rewrite word_at_insert in Hset. destruct (decide _) as [Heq|_].
    + destruct (Z.eq_dec (disabledValidators_byte i) j) as [Hji|Hji].
      * rewrite <- Heq, <- Hji, flag_slot_of_components. exact Hb.
      * rewrite get_put_byte_other in Hset;
          [|apply disabledValidators_byte_range|lia|exact Hji].
        rewrite <- Heq in *. apply Hinv; assumption.
    + apply Hinv; assumption.
  - unfold flags_bound. simpl_storage. intros o j Hj Hset.
    rewrite word_at_insert. destruct (decide _) as [Heq|_].
    + exfalso. apply (Hinv o j Hj Hset). rewrite <- Heq. exact Hb.
    + apply Hinv; assumption.
Qed.

Lemma flags_bound_deployed (deployer : address) : flags_bound (deployed deployer).
Proof.
  intros o j _ Hset. exfalso. apply Hset.
  unfold deployed, word_at. simpl_storage. rewrite lookup_empty. apply get_byte_0.
Qed.

(** X4. Revocation as the getters see it is irreversible: a flag of
    [disabledValidators] that reads true reads true after every history of
    transactions, whoever sends them. *)
Theorem disabled_flag_never_reset :
  forall (txs : list (address * call)) (e c i : Z) (s : storage),
    disabledValidators_getter e c i s = true ->
    disabledValidators_getter e c i (replay txs s) = true.
Proof.
  intros txs e c i s Hset. unfold disabledValidators_getter in *.
  apply to_bool_true_iff in Hset. apply to_bool_true_iff.
  revert s Hset.
  apply (replay_invariant
           (fun s => get_byte (word_at (disabledValidators s)
                                       (disabledValidators_offset e c i))
                              (disabledValidators_byte i) <> 0)).
  intros who c0 s Hs. apply transact_flag_kept; [apply disabledValidators_byte_range|exact Hs].
Qed.

(** X5. Starting from the constructor's state, whatever the history: a
    flag of [disabledValidators] reads true only where [validators] holds a
    non-zero handle, since [invalidateProof] demands a binding and no
    function takes one away. *)
Theorem disabled_only_if_bound :
  forall (deployer : address) (txs : list (address * call)) (e c i : Z),
    disabledValidators_getter e c i (replay txs (deployed deployer)) = true ->
    validators_getter e c i (replay txs (deployed deployer)) <> 0.
Proof.
  intros deployer txs e c i Hset.
  assert (Hinv : flags_bound (replay txs (deployed deployer))).
  { apply (replay_invariant flags_bound).
    - intros who c0 s. apply transact_flags_bound.
    - apply flags_bound_deployed. }
  unfold disabledValidators_getter in Hset. apply to_bool_true_iff in Hset.
  unfold validators_getter. rewrite <- flag_slot_of_components.
  apply Hinv; [apply disabledValidators_byte_range|exact Hset].
Qed.

(** X6. Revocation as the dispatcher sees it is irreversible too: once
    [getValidatorAddress] reverts with "expected the validator address to
    not be disabled", or [validateProofByHash] with "this proof id has been
    invalidated!", it does so after every history of transactions. *)
Theorem disabled_dispatch_is_final :
  forall (txs : list (address * call)) (p : uint24) (h : bytes32) (sender : address)
         (s : storage),
    (run (getValidatorAddress p) s
     = Reverted (Error "expected the validator address to not be disabled")
                (mkMachine s []) ->
     run (getValidatorAddress p) (replay txs s)
     = Reverted (Error "expected the validator address to not be disabled")
                (mkMachine (replay txs s) []))
    /\ (run (validateProofByHash p h sender) s
        = Reverted (Error "this proof id has been invalidated!") (mkMachine s []) ->
        run (validateProofByHash p h sender) (replay txs s)
        = Reverted (Error "this proof id has been invalidated!")
                   (mkMachine (replay txs s) [])).
Proof.
  intros txs p h sender s.
  destruct (replay_frame keccak256 staticcall BALANCED txs s) as (_ & _ & Hval & Hdis).
  split.
  - unfold run. rewrite !getValidatorAddress_run. simpl_storage.
    destruct (word_at (validators s) p =? 0) eqn:Hb; [discriminate|].
    destruct (word_at (disabledValidators s) p =? 0) eqn:Hd; [discriminate|].
    intros _. apply Z.eqb_neq in Hb, Hd.
    rewrite (Hval p Hb). apply Z.eqb_neq in Hb. rewrite Hb.
    specialize (Hdis p Hd). apply Z.eqb_neq in Hdis. rewrite Hdis. reflexivity.
  - rewrite !validateProofByHash_run.
    destruct (word_at (disabledValidators s) p =? 0) eqn:Hd; [discriminate|].
    intros _. apply Z.eqb_neq in Hd.
    specialize (Hdis p Hd). apply Z.eqb_neq in Hdis. rewrite Hdis. reflexivity.
Qed.

(** X7. Which proof object [invalidateProof] switches off.  After a
    successful [invalidateProof(p)], [validateProofByHash(q, ...)] reverts
    exactly for the proof object [q = p / 32] and for those for which it
    already reverted: the function writes the packed flag of [p], which
    lies in the storage word that the Yul code reads for [p / 32]. *)
Theorem invalidateProof_switches_off :
  forall (who : address) (p : uint24) (s : storage) (m : machine)
         (q : uint24) (h : bytes32) (sender : address),
    uint24_range p ->
    run (invalidateProof who p) s = Returned tt m ->
    (succeeds (run (validateProofByHash q h sender) (store m)) = false
     <-> q = p / 32 \/ succeeds (run (validateProofByHash q h sender) s) = false).
Proof.
  intros who p s m q h sender Hp Hrun.
  pose proof (disabledValidators_offset_components p Hp) as Hflag.
  rewrite invalidateProof_run in Hrun. cbv zeta in Hrun. rewrite Hflag in Hrun.
  destruct (isOwner who s); [|discriminate].
  destruct (word_at (validators s) _ =? 0); [discriminate|].
  apply Returned_inj in Hrun. destruct Hrun as [_ Hm]. subst m.
  rewrite !validateProofByHash_run. simpl_storage. rewrite word_at_insert.
  destruct (decide (p / 32 = q)) as [Heq|Hne].
  - destruct (put_byte _ _ 1 =? 0) eqn:Hz.
    + apply Z.eqb_eq in Hz. exfalso. revert Hz. apply put_byte_nonzero.
      apply disabledValidators_byte_range.
    + simpl_storage. split; [intros _; left; symmetry; exact Heq|reflexivity].
  - destruct (word_at (disabledValidators s) q =? 0); simpl_storage.
    + split; [discriminate|]. intros [Heq|Hf]; [congruence|discriminate].
    + split; [right; reflexivity|reflexivity].
Qed.

(** *** The ledger *)

(** X8. A record of the ledger goes from unset to set only in a
    [validateProof] on a [BALANCED] proof object whose validator returned
    outputs; the key is then one of those made of a fingerprint of these
    outputs, the proof object and the caller. *)
Theorem record_set_only_by_validateProof :
  forall (who : address) (c : call) (s : storage) (k : bytes32),
    entry_at (validatedProofs s) k = false ->
    entry_at (validatedProofs (transact (perform who c) s)) k = true ->
    exists p sender data outs,
      c = ValidateProof p sender data
      /\ proof_category p = BALANCED
      /\ staticcall (word_at (validators s) p) data sender (commonReferenceString s)
         = Some outs
      /\ k ∈ ledger_keys who p outs.
Proof.
  intros who c s k Hunset Hset.
  destruct c as [p sender data|p hs|crs|p|p v|]; cbn [ACE.perform] in Hset.
  - unfold transact, run, bind in Hset.
    change (validateProof who p sender data (mkMachine s []))
      with (run (validateProof who p sender data) s) in Hset.
    rewrite validateProof_run in Hset. cbv zeta in Hset.
    destruct (word_at (validators s) p =? 0); [simpl_storage; congruence|].
    destruct (word_at (disabledValidators s) p =? 0); [|simpl_storage; congruence].
    destruct (staticcall _ data sender _) as [outs|] eqn:Hcall;
      [|simpl_storage; congruence].
    destruct (Z.land (Z.shiftr p 8) 255 =? BALANCED) eqn:Hcat;
      [|unfold ret in Hset; simpl_storage; congruence].
    unfold ret in Hset. simpl_storage. rewrite assign_all_entry in Hset.
    destruct (decide _) as [Hin|_]; [|congruence].
    exists p, sender, data, outs. apply Z.eqb_eq in Hcat. repeat split; assumption.
  - exfalso. destruct (clearProofByHashes_post keccak256 who p hs s) as [E|E];
      rewrite E in Hset; [congruence|].
    rewrite assign_all_entry in Hset. destruct (decide _); congruence.
  - exfalso. unfold transact in Hset. rewrite setCommonReferenceString_run in Hset.
    destruct (isOwner who s); simpl_storage; congruence.
  - exfalso. unfold transact in Hset. rewrite invalidateProof_run in Hset.
    cbv zeta in Hset. destruct (isOwner who s); simpl_storage; [|congruence].
    destruct (word_at (validators s) _ =? 0); simpl_storage; congruence.
  - exfalso. unfold transact in Hset. rewrite setProof_run in Hset. cbv zeta in Hset.
    destruct (isOwner who s); simpl_storage; [|congruence].
    destruct (proof_epoch p <=? latestEpoch s); simpl_storage; [|congruence].
    destruct (word_at (validators s) _ =? 0); simpl_storage; congruence.
  - exfalso. unfold transact in Hset. rewrite incrementLatestEpoch_run in Hset.
    destruct (isOwner who s); simpl_storage; [|congruence].
    destruct (latestEpoch s <=? _); simpl_storage; congruence.
Qed.

(** X9. A record of the ledger goes from set to unset only in a successful
    [clearProofByHashes], and its key is one of those that call made of a
    listed fingerprint, its proof object and its own caller. *)
Theorem record_unset_only_by_clear :
  forall (who : address) (c : call) (s : storage) (k : bytes32),
    entry_at (validatedProofs s) k = true ->
    entry_at (validatedProofs (transact (perform who c) s)) k = false ->
    exists p hs,
      c = ClearProofByHashes p hs
      /\ succeeds (run (clearProofByHashes who p hs) s) = true
      /\ k ∈ clear_keys who p hs.
Proof.
  intros who c s k Hset Hunset.
  destruct c as [p sender data|p hs|crs|p|p v|]; cbn [ACE.perform] in Hunset.
  - exfalso.
    destruct (validateProof_post keccak256 staticcall BALANCED who p sender data s)
      as [E|[outs E]]; rewrite E in Hunset; [congruence|].
    rewrite assign_all_entry in Hunset. destruct (decide _); congruence.
  - exists p, hs. split; [reflexivity|].
    unfold transact in Hunset.
    destruct (run (clearProofByHashes who p hs) s) as [u m|r m] eqn:Hrun;
      simpl_storage; [|congruence].
    split; [reflexivity|].
    pose proof Hrun as Hinv. unfold run in Hinv. rewrite clearProofByHashes_each in Hinv.
    apply clear_each_inv in Hinv. destruct Hinv as (Hnz & Hrec & Hnd).
    unfold run in Hrun. rewrite clearProofByHashes_each in Hrun.
    rewrite (clear_each_ok keccak256 who p hs (mkMachine s []) Hnz Hrec Hnd) in Hrun.
    apply Returned_inj in Hrun. destruct Hrun as [_ Hm]. subst m. simpl_storage.
    rewrite assign_all_entry in Hunset. destruct (decide _) as [Hin|_]; [exact Hin|].
    congruence.
  - exfalso. unfold transact in Hunset. rewrite setCommonReferenceString_run in Hunset.
    destruct (isOwner who s); simpl_storage; congruence.
  - exfalso. unfold transact in Hunset. rewrite invalidateProof_run in Hunset.
    cbv zeta in Hunset. destruct (isOwner who s); simpl_storage; [|congruence].
    destruct (word_at (validators s) _ =? 0); simpl_storage; congruence.
  - exfalso. unfold transact in Hunset. rewrite setProof_run in Hunset.
    cbv zeta in Hunset.
    destruct (isOwner who s); simpl_storage; [|congruence].
    destruct (proof_epoch p <=? latestEpoch s); simpl_storage; [|congruence].
    destruct (word_at (validators s) _ =? 0); simpl_storage; congruence.
  - exfalso. unfold transact in Hunset. rewrite incrementLatestEpoch_run in Hunset.
    destruct (isOwner who s); simpl_storage; [|congruence].
    destruct (latestEpoch s <=? _); simpl_storage; congruence.
Qed.

Lemma validateProof_balanced_store (who : address) (p : uint24) (sender : address)
      (data : bytes) (s : storage) (outs : proofOutputs) (m : machine) :
  proof_category p = BALANCED ->
  run (validateProof who p sender data) s = Returned outs m ->
  store m = assign_all true (ledger_keys who p outs) s.
Proof.
  intros Hcat Hrun. rewrite validateProof_run in Hrun. cbv zeta in Hrun.
  destruct (word_at (validators s) p =? 0); [discriminate|].
  destruct (word_at (disabledValidators s) p =? 0); [|discriminate].
  destruct (staticcall _ data sender _) as [outs'|]; [|discriminate].
  apply Z.eqb_eq in Hcat. unfold proof_category, getProofComponents in Hcat.
  rewrite Hcat in Hrun. apply Returned_inj in Hrun. destruct Hrun as [Ho Hm].
  subst m outs'. reflexivity.
Qed.

(** X10. For a validator whose answer is a function of its calldata alone
    (proof data, sender and common reference string, as [staticcall] is
    here; a validator that reads the engine's storage is not covered):
    validating the same proof a second time changes nothing more.  The
    records are assigned, not counted, so the storage after two identical
    [validateProof] transactions is the storage after one. *)
Theorem validateProof_twice :
  forall (who : address) (p : uint24) (sender : address) (data : bytes) (s : storage),
    transact (validateProof who p sender data)
             (transact (validateProof who p sender data) s)
    = transact (validateProof who p sender data) s.
Proof.
  intros who p sender data s. unfold transact at 2 3.
  rewrite validateProof_run. cbv zeta.
  destruct (word_at (validators s) p =? 0) eqn:Hb;
    [simpl_storage; unfold transact; rewrite validateProof_run; cbv zeta;
     rewrite Hb; reflexivity|].
  destruct (word_at (disabledValidators s) p =? 0) eqn:Hd;
    [|simpl_storage; unfold transact; rewrite validateProof_run; cbv zeta;
      rewrite Hb, Hd; reflexivity].
  destruct (staticcall _ data sender _) as [outs|] eqn:Hcall;
    [|simpl_storage; unfold transact; rewrite validateProof_run; cbv zeta;
      rewrite Hb, Hd, Hcall; reflexivity].
  destruct (Z.land (Z.shiftr p 8) 255 =? BALANCED) eqn:Hcat; simpl_storage.
  - destruct (assign_all_frame true (ledger_keys who p outs) s)
      as (_ & H2 & H3 & H4 & _).
    unfold transact. rewrite validateProof_run. cbv zeta.
    rewrite H2, H3, H4, Hb, Hd, Hcall, Hcat. simpl_storage.
    apply assign_all_twice.
  - unfold transact. rewrite validateProof_run. cbv zeta.
    rewrite Hb, Hd, Hcall, Hcat. reflexivity.
Qed.

(** X11. Validate, then clear (the use the contract documents for
    [clearProofByHashes]): after a successful [validateProof] on a
    [BALANCED] proof object whose outputs have non-zero fingerprints and
    pairwise different keys, the same caller's [clearProofByHashes] of these
    fingerprints succeeds; every record of the call reads false, every
    other record and every other state variable are as before the
    validation. *)
Theorem validate_then_clear :
  forall (who : address) (p : uint24) (sender : address) (data : bytes)
         (s : storage) (outs : proofOutputs) (m1 : machine),
    proof_category p = BALANCED ->
    run (validateProof who p sender data) s = Returned outs m1 ->
    Forall (fun o => fingerprint o <> 0) outs ->
    NoDup (ledger_keys who p outs) ->
    exists m2,
      run (clearProofByHashes who p (map fingerprint outs)) (store m1) = Returned tt m2
      /\ (forall k, entry_at (validatedProofs (store m2)) k
                    = if decide (k ∈ ledger_keys who p outs) then false
                      else entry_at (validatedProofs s) k)
      /\ set_validatedProofs (validatedProofs s) (store m2) = s.
Proof.
  intros who p sender data s outs m1 Hcat Hrun Hnz Hnd.
  pose proof (validateProof_balanced_store who p sender data s outs m1 Hcat Hrun) as Hs1.
  assert (Hrec : forall o, o ∈ outs ->
            entry_at (validatedProofs (store m1)) (key (fingerprint o) p who) = true).
  { intros o Ho. rewrite Hs1, assign_all_entry.
    destruct (decide _) as [_|Hout]; [reflexivity|].
    exfalso. apply Hout. unfold ACE.ledger_keys.
    apply list_elem_of_fmap. exists o. split; [reflexivity|exact Ho]. }
  assert (Hkeys : clear_keys who p (map fingerprint outs) = ledger_keys who p outs).
  { unfold ACE.clear_keys, ACE.ledger_keys. rewrite map_map. reflexivity. }
  assert (Hnz' : Forall (fun h => h <> 0) (map fingerprint outs)).
  { apply Forall_forall. intros h Hh. apply list_elem_of_fmap in Hh.
    destruct Hh as (o & -> & Ho). rewrite Forall_forall in Hnz. apply Hnz, Ho. }
  assert (Hrec' : Forall (fun h => entry_at (validatedProofs (store (mkMachine (store m1) [])))
                                             (key h p who) = true)
                         (map fingerprint outs)).
  { apply Forall_forall. intros h Hh. apply list_elem_of_fmap in Hh.
    destruct Hh as (o & -> & Ho). apply Hrec, Ho. }
  assert (Hnd' : NoDup (clear_keys who p (map fingerprint outs)))
    by (rewrite Hkeys; exact Hnd).
  eexists. split; [|split].
  - unfold run. rewrite clearProofByHashes_each.
    apply (clear_each_ok keccak256 who p (map fingerprint outs)
                         (mkMachine (store m1) []) Hnz' Hrec' Hnd').
  - intros k. simpl_storage. rewrite Hkeys, Hs1, !assign_all_entry.
    destruct (decide _); reflexivity.
  - simpl_storage. rewrite Hkeys, Hs1.
    destruct (assign_all_frame false (ledger_keys who p outs)
                (assign_all true (ledger_keys who p outs) s)) as (A1 & A2 & A3 & A4 & A5).
    destruct (assign_all_frame true (ledger_keys who p outs) s)
      as (B1 & B2 & B3 & B4 & B5).
    apply storage_eq; simpl_storage; congruence.
Qed.

(** *** The constructor *)

(** X12. Right after construction nothing is registered and nothing is
    recorded: for every proof object [getValidatorAddress] and
    [validateProof] revert with "expected the validator address to exist",
    the owner's [invalidateProof] reverts with "can only invalidate proofs
    that exist!", and [validateProofByHash] returns false for every
    fingerprint and sender. *)
Theorem fresh_engine :
  forall (deployer caller : address) (p : uint24) (sender : address) (data : bytes)
         (h : bytes32),
    let s := deployed deployer in
    run (getValidatorAddress p) s
    = Reverted (Error "expected the validator address to exist") (mkMachine s [])
    /\ run (validateProof caller p sender data) s
       = Reverted (Error "expected the validator address to exist") (mkMachine s [])
    /\ run (invalidateProof deployer p) s
       = Reverted (Error "can only invalidate proofs that exist!") (mkMachine s [])
    /\ run (validateProofByHash p h sender) s = Returned false (mkMachine s []).
Proof.
  intros deployer caller p sender data h s.
  assert (Hv : forall q, word_at (validators s) q = 0)
    by (intros q; unfold s, deployed, word_at; simpl_storage; rewrite lookup_empty;
        reflexivity).
  assert (Hd : forall q, word_at (disabledValidators s) q = 0)
    by (intros q; unfold s, deployed, word_at; simpl_storage; rewrite lookup_empty;
        reflexivity).
  assert (Hl : forall k, entry_at (validatedProofs s) k = false)
    by (intros k; unfold s, deployed, entry_at; simpl_storage; rewrite lookup_empty;
        reflexivity).
  assert (Hown : isOwner deployer s = true)
    by (unfold isOwner, s, deployed; simpl_storage; apply Z.eqb_refl).
  split; [|split; [|split]].
  - unfold run. rewrite getValidatorAddress_run. simpl_storage. rewrite Hv. reflexivity.
  - rewrite validateProof_run. cbv zeta. rewrite Hv. reflexivity.
  - rewrite invalidateProof_run. cbv zeta. rewrite Hown, Hv. reflexivity.
  - rewrite validateProofByHash_run, Hd, Hl. reflexivity.
Qed.

(** *** Registration and resolution *)

(** X13. Register, then resolve: for the owner, a well-formed proof object
    within the epoch, a free slot, a non-zero handle and a proof object the
    dispatcher does not see as disabled, [setProof(p, v)] succeeds and
    [getValidatorAddress(p)] then returns [v]; the slot of [p] is the only
    thing written, so every other proof object resolves as before. *)
Theorem setProof_then_resolve :
  forall (who : address) (p : uint24) (v : address) (s : storage),
    uint24_range p ->
    isOwner who s = true ->
    proof_epoch p <= latestEpoch s ->
    word_at (validators s) p = 0 ->
    v <> 0 ->
    word_at (disabledValidators s) p = 0 ->
    exists m,
      run (setProof who p v) s = Returned tt m
      /\ store m = set_validators (<[p := v]> (validators s)) s
      /\ run (getValidatorAddress p) (store m) = Returned v (mkMachine (store m) [])
      /\ (forall q, q <> p ->
                    succeeds (run (getValidatorAddress q) (store m))
                    = succeeds (run (getValidatorAddress q) s)
                    /\ word_at (validators (store m)) q = word_at (validators s) q).
Proof.
  intros who p v s Hp Hown Hle Hfree Hv Hactive.
  pose proof (validators_offset_components p Hp) as Hslot.
  apply Z.leb_le in Hle.
  assert (Hbound : word_at (<[p := v]> (validators s)) p = v).
  { rewrite word_at_insert. destruct (decide _); [reflexivity|contradiction]. }
  eexists. split; [|split; [|split]].
  - rewrite setProof_run. cbv zeta. rewrite Hslot, Hown, Hle, Hfree. reflexivity.
  - reflexivity.
  - unfold run. rewrite getValidatorAddress_run. simpl_storage. rewrite Hbound, Hactive.
    apply Z.eqb_neq in Hv. rewrite Hv. reflexivity.
  - intros q Hq. simpl_storage.
    assert (Hother : word_at (<[p := v]> (validators s)) q = word_at (validators s) q).
    { rewrite word_at_insert. destruct (decide _); [congruence|reflexivity]. }
    split; [|exact Hother].
    unfold run. rewrite !getValidatorAddress_run. simpl_storage. rewrite Hother.
    destruct (word_at (validators s) q =? 0); [reflexivity|].
    destruct (word_at (disabledValidators s) q =? 0); reflexivity.
Qed.

(** X14. The dispatcher and the consultation agree on revocation: for a
    bound proof object [getValidatorAddress] succeeds exactly when
    [validateProofByHash] does, both looking at the same storage word. *)
Theorem dispatch_and_consult_agree :
  forall (p : uint24) (h : bytes32) (sender : address) (s : storage),
    word_at (validators s) p <> 0 ->
    succeeds (run (getValidatorAddress p) s)
    = succeeds (run (validateProofByHash p h sender) s).
Proof.
  intros p h sender s Hb. unfold run at 1.
  rewrite getValidatorAddress_run, validateProofByHash_run. simpl_storage.
  apply Z.eqb_neq in Hb. rewrite Hb.
  destruct (word_at (disabledValidators s) p =? 0); reflexivity.
Qed.

(** X15. The validator is called with the common reference string that
    is stored at the time of the call: after the owner's
    [setCommonReferenceString(crs)], [validateProof] on a proof object that
    [getValidatorAddress] resolves to a validator returns what this
    validator answers for [crs], and reverts with the word 400 when the
    validator fails for [crs]. *)
Theorem validateProof_after_setCommonReferenceString :
  forall (owner : address) (crs : list bytes32) (who : address) (p : uint24)
         (sender : address) (data : bytes) (s : storage) (v : address),
    isOwner owner s = true ->
    run (getValidatorAddress p) s = Returned v (mkMachine s []) ->
    let s' := transact (setCommonReferenceString owner crs) s in
    match staticcall v data sender crs with
    | Some outs => exists m, run (validateProof who p sender data) s' = Returned outs m
    | None => run (validateProof who p sender data) s'
              = Reverted (RevertData 400) (mkMachine s' [Ev_staticcall v s'])
    end.
Proof.
  intros owner crs who p sender data s v Hown Hres s'.
  destruct (getValidatorAddress_returned p s v _ Hres) as (Hv & Hb & Hd). subst v.
  assert (Hs' : s' = set_commonReferenceString crs s).
  { unfold s', transact. rewrite setCommonReferenceString_run, Hown. reflexivity. }
  rewrite validateProof_run. cbv zeta. rewrite Hs'. simpl_storage.
  apply Z.eqb_neq in Hb. rewrite Hb, Hd. cbn [Z.eqb].
  destruct (staticcall _ data sender crs) as [outs|]; [|reflexivity].
  eexists. reflexivity.
Qed.

(** *** The epoch counter over histories *)

Lemma transact_epoch_range (who : address) (c : call) (s : storage) :
  0 <= latestEpoch s <= 255 ->
  0 <= latestEpoch (transact (perform who c) s) <= 255.
Proof.
  intros Hr.
  destruct (transact_cases who c s)
    as [E|[(v & keys & E)|[(crs & E)|[(e & c' & i & Hb & E)|[(slot & v & Hb & E)|[Hle E]]]]]];
    rewrite E; simpl_storage; try exact Hr.
  - destruct (assign_all_frame v keys s) as (_ & _ & _ & _ & H5). rewrite H5. exact Hr.
  - pose proof (Z.mod_pos_bound (latestEpoch s + 1) 256 ltac:(lia)). lia.
Qed.

(** X16. Over every history of calls of the six functions above
    [latestEpoch] never goes down; started within the range of a [uint8]
    it stays there. *)
Theorem latestEpoch_over_histories :
  forall (txs : list (address * call)) (s : storage),
    0 <= latestEpoch s <= 255 ->
    latestEpoch s <= latestEpoch (replay txs s) <= 255.
Proof.
  intros txs s Hr.
  assert (H : 0 <= latestEpoch (replay txs s) <= 255).
  { revert s Hr. apply (replay_invariant (fun s => 0 <= latestEpoch s <= 255)).
    intros who c s. apply transact_epoch_range. }
  destruct (replay_frame keccak256 staticcall BALANCED txs s) as (_ & Hmono & _).
  lia.
Qed.

(** X17. [n] increments by the owner add [n] to [latestEpoch] until it
    reaches 255, where it stays (the further increments revert). *)
Theorem increments_saturate :
  forall (n : nat) (who : address) (s : storage),
    isOwner who s = true ->
    0 <= latestEpoch s <= 255 ->
    latestEpoch (replay (replicate n (who, IncrementLatestEpoch)) s)
    = Z.min 255 (latestEpoch s + Z.of_nat n).
Proof.
  induction n as [|n IH]; intros who s Hown Hr.
  - cbn [replicate ACE.replay]. lia.
  - cbn [replicate ACE.replay ACE.perform].
    assert (Hstep : transact (incrementLatestEpoch who) s
                    = set_latestEpoch (Z.min 255 (latestEpoch s + 1)) s).
    { unfold transact. rewrite incrementLatestEpoch_run, Hown.
      destruct (Z.eq_dec (latestEpoch s) 255) as [Hmax|Hlt].
      - rewrite Hmax. change ((255 + 1) mod 256) with 0.
        change (255 <=? 0) with false. change (Z.min 255 (255 + 1)) with 255.
        simpl_storage. rewrite <- Hmax. destruct s; reflexivity.
      - rewrite Z.mod_small by lia.
        destruct (Z.leb_spec (latestEpoch s) (latestEpoch s + 1)); [|lia].
        simpl_storage. rewrite Z.min_r by lia. reflexivity. }
    rewrite Hstep. rewrite IH.
    + simpl_storage. lia.
    + unfold isOwner in *. simpl_storage. exact Hown.
    + simpl_storage. lia.
Qed.

(** X18. The epoch gate opens with the counter: a proof object of the
    epoch right after [latestEpoch] is refused by [setProof] with "the
    proof epoch cannot be bigger than the latest epoch", and accepted once
    the owner has called [incrementLatestEpoch]. *)
Theorem epoch_gate_opens :
  forall (who : address) (p : uint24) (v : address) (s : storage),
    isOwner who s = true ->
    0 <= latestEpoch s ->
    proof_epoch p = latestEpoch s + 1 ->
    validators_getter (proof_epoch p) (proof_category p) (proof_id p) s = 0 ->
    run (setProof who p v) s
    = Reverted (Error "the proof epoch cannot be bigger than the latest epoch")
               (mkMachine s [])
    /\ exists m,
        run (setProof who p v) (transact (incrementLatestEpoch who) s) = Returned tt m
        /\ validators_getter (proof_epoch p) (proof_category p) (proof_id p) (store m) = v.
Proof.
  intros who p v s Hown H0 Hep Hfree. unfold validators_getter in *.
  assert (Hle255 : proof_epoch p <= 255).
  { unfold proof_epoch, getProofComponents. rewrite land_0xff.
    pose proof (Z.mod_pos_bound (Z.shiftr p 16) 256 ltac:(lia)). lia. }
  assert (Hstep : transact (incrementLatestEpoch who) s
                  = set_latestEpoch (latestEpoch s + 1) s).
  { unfold transact. rewrite incrementLatestEpoch_run, Hown.
    rewrite Z.mod_small by lia.
    destruct (Z.leb_spec (latestEpoch s) (latestEpoch s + 1)); [|lia]. reflexivity. }
  split.
  - rewrite setProof_run. cbv zeta. rewrite Hown.
    destruct (Z.leb_spec (proof_epoch p) (latestEpoch s)); [lia|]. reflexivity.
  - rewrite Hstep. eexists. split.
    + rewrite setProof_run. cbv zeta. unfold isOwner in *. simpl_storage.
      rewrite Hown, Hfree.
      destruct (Z.leb_spec (proof_epoch p) (latestEpoch s + 1)); [|lia]. reflexivity.
    + simpl_storage. rewrite word_at_insert.
      destruct (decide _); [reflexivity|contradiction].
Qed.

(** *** Two halves of the storage *)

(** X19. The ledger functions and the administrative functions write
    disjoint parts of the storage: [validateProof] and [clearProofByHashes]
    change nothing but [validatedProofs], and [setCommonReferenceString],
    [invalidateProof], [setProof] and [incrementLatestEpoch] never change
    [validatedProofs]. *)
Theorem ledger_and_registry_apart :
  forall (who : address) (c : call) (s : storage),
    let s' := transact (perform who c) s in
    match c with
    | ValidateProof _ _ _ | ClearProofByHashes _ _ =>
        set_validatedProofs (validatedProofs s) s' = s
    | _ => validatedProofs s' = validatedProofs s
    end.
Proof.
  intros who c s.
  assert (Hledger : forall v keys,
             set_validatedProofs (validatedProofs s) (assign_all v keys s) = s).
  { intros v keys. destruct (assign_all_frame v keys s) as (H1 & H2 & H3 & H4 & H5).
    apply storage_eq; simpl_storage; congruence. }
  destruct c as [p sender data|p hs|crs|p|p v|]; cbn [ACE.perform]; cbv zeta.
  - destruct (validateProof_post keccak256 staticcall BALANCED who p sender data s)
      as [E|[outs E]]; rewrite E; [destruct s; reflexivity|apply Hledger].
  - destruct (clearProofByHashes_post keccak256 who p hs s) as [E|E]; rewrite E;
      [destruct s; reflexivity|apply Hledger].
  - unfold transact. rewrite setCommonReferenceString_run.
    destruct (isOwner who s); reflexivity.
  - unfold transact. rewrite invalidateProof_run. cbv zeta.
    destruct (isOwner who s); [|reflexivity].
    destruct (word_at (validators s) _ =? 0); reflexivity.
  - unfold transact. rewrite setProof_run. cbv zeta.
    destruct (isOwner who s); [|reflexivity].
    destruct (proof_epoch p <=? latestEpoch s); [|reflexivity].
    destruct (word_at (validators s) _ =? 0); reflexivity.
  - unfold transact. rewrite incrementLatestEpoch_run.
    destruct (isOwner who s); [|reflexivity].
    destruct (latestEpoch s <=? _); reflexivity.
Qed.

End Further.

(** ** Instances of the further properties *)

Lemma setCommonReferenceString_then_get_witness :
  exists m,
    run (setCommonReferenceString Stub.owner Stub.crs) Stub.registered = Returned tt m
    /\ store m = set_commonReferenceString Stub.crs Stub.registered
    /\ run getCommonReferenceString (store m) = Returned Stub.crs (mkMachine (store m) []).
Proof.
  apply (setCommonReferenceString_then_get Stub.owner Stub.crs Stub.registered).
  vm_compute. reflexivity.
Defined.

Lemma admin_calls_need_owner_witness :
  run (setProof Stub.alice Stub.JOIN_SPLIT Stub.echo) (deployed Stub.owner)
  = Reverted (Error "only the owner can set a proof") (mkMachine (deployed Stub.owner) []).
Proof.
  apply (admin_calls_need_owner Stub.alice Stub.JOIN_SPLIT Stub.echo Stub.crs
           (deployed Stub.owner)).
  vm_compute. reflexivity.
Defined.

Lemma invalidateProof_by_owner_witness :
  (exists m,
      run (invalidateProof Stub.owner Stub.JOIN_SPLIT) Stub.registered = Returned tt m
      /\ disabledValidators_getter (proof_epoch Stub.JOIN_SPLIT)
            (proof_category Stub.JOIN_SPLIT) (proof_id Stub.JOIN_SPLIT) (store m) = true)
  /\ run (invalidateProof Stub.owner Stub.EPOCH_5) Stub.registered
     = Reverted (Error "can only invalidate proofs that exist!")
                (mkMachine Stub.registered []).
Proof.
  assert (Hown : isOwner Stub.owner Stub.registered = true) by (vm_compute; reflexivity).
  split.
  - destruct (proj1 (invalidateProof_by_owner Stub.owner Stub.JOIN_SPLIT Stub.registered
                       Hown)) as (m & Hrun & Hflag & _).
    + vm_compute. discriminate.
    + exists m. split; assumption.
  - apply (proj2 (invalidateProof_by_owner Stub.owner Stub.EPOCH_5 Stub.registered Hown)).
    vm_compute. reflexivity.
Defined.

Lemma disabled_flag_never_reset_witness :
  disabledValidators_getter 1 1 1
    (Stub.replay [(Stub.owner, IncrementLatestEpoch);
                  (Stub.owner, InvalidateProof Stub.SHADOWED);
                  (Stub.alice, InvalidateProof Stub.JOIN_SPLIT)]
                 Stub.invalidated) = true.
Proof.
  apply (disabled_flag_never_reset Stub.keccak256 Stub.staticcall Stub.BALANCED).
  vm_compute. reflexivity.
Defined.

Lemma disabled_only_if_bound_witness :
  validators_getter 1 1 1
    (Stub.replay [(Stub.owner, SetProof Stub.JOIN_SPLIT Stub.pair);
                  (Stub.owner, InvalidateProof Stub.JOIN_SPLIT)]
                 (deployed Stub.owner)) <> 0.
Proof.
  apply (disabled_only_if_bound Stub.keccak256 Stub.staticcall Stub.BALANCED Stub.owner
           [(Stub.owner, SetProof Stub.JOIN_SPLIT Stub.pair);
            (Stub.owner, InvalidateProof Stub.JOIN_SPLIT)] 1 1 1).
  vm_compute. reflexivity.
Defined.

Lemma disabled_dispatch_is_final_witness :
  run (getValidatorAddress Stub.SHADOWED)
      (Stub.replay [(Stub.owner, IncrementLatestEpoch)] Stub.invalidated)
  = Reverted (Error "expected the validator address to not be disabled")
             (mkMachine (Stub.replay [(Stub.owner, IncrementLatestEpoch)] Stub.invalidated) [])
  /\ run (Stub.validateProofByHash Stub.SHADOWED Stub.fp1 Stub.dapp)
         (Stub.replay [(Stub.owner, IncrementLatestEpoch)] Stub.invalidated)
     = Reverted (Error "this proof id has been invalidated!")
                (mkMachine (Stub.replay [(Stub.owner, IncrementLatestEpoch)] Stub.invalidated) []).
Proof.
  split.
  - apply (proj1 (disabled_dispatch_is_final Stub.keccak256 Stub.staticcall Stub.BALANCED
                    [(Stub.owner, IncrementLatestEpoch)] Stub.SHADOWED Stub.fp1 Stub.dapp
                    Stub.invalidated)).
    vm_compute. reflexivity.
  - apply (proj2 (disabled_dispatch_is_final Stub.keccak256 Stub.staticcall Stub.BALANCED
                    [(Stub.owner, IncrementLatestEpoch)] Stub.SHADOWED Stub.fp1 Stub.dapp
                    Stub.invalidated)).
    vm_compute. reflexivity.
Defined.

Lemma invalidateProof_switches_off_witness :
  succeeds (run (Stub.validateProofByHash Stub.SHADOWED Stub.fp1 Stub.dapp)
                Stub.invalidated) = false
  /\ (succeeds (run (Stub.validateProofByHash Stub.JOIN_SPLIT Stub.fp1 Stub.dapp)
                    Stub.invalidated) = false ->
      Stub.JOIN_SPLIT = Stub.JOIN_SPLIT / 32
      \/ succeeds (run (Stub.validateProofByHash Stub.JOIN_SPLIT Stub.fp1 Stub.dapp)
                       Stub.validated) = false).
Proof.
  assert (Hp : uint24_range Stub.JOIN_SPLIT) by (unfold uint24_range, Stub.JOIN_SPLIT; lia).
  assert (Hrun : run (invalidateProof Stub.owner Stub.JOIN_SPLIT) Stub.validated
                 = Returned tt (mkMachine Stub.invalidated
                                  [Ev_sstore "disabledValidators" (Stub.JOIN_SPLIT / 32)]))
    by (vm_compute; reflexivity).
  split.
  - apply (invalidateProof_switches_off Stub.keccak256 Stub.owner Stub.JOIN_SPLIT
             Stub.validated _ Stub.SHADOWED Stub.fp1 Stub.dapp Hp Hrun).
    left. vm_compute. reflexivity.
  - apply (invalidateProof_switches_off Stub.keccak256 Stub.owner Stub.JOIN_SPLIT
             Stub.validated _ Stub.JOIN_SPLIT Stub.fp1 Stub.dapp Hp Hrun).
Defined.

Lemma record_set_only_by_validateProof_witness :
  exists p sender data outs,
    ValidateProof Stub.JOIN_SPLIT Stub.alice Stub.data = ValidateProof p sender data
    /\ proof_category p = Stub.BALANCED
    /\ Stub.staticcall (word_at (validators Stub.registered) p) data sender
         (commonReferenceString Stub.registered) = Some outs
    /\ Stub.key Stub.fp1 Stub.JOIN_SPLIT Stub.dapp
       ∈ ACE.ledger_keys Stub.keccak256 Stub.dapp p outs.
Proof.
  apply (record_set_only_by_validateProof Stub.keccak256 Stub.staticcall Stub.BALANCED
           Stub.dapp (ValidateProof Stub.JOIN_SPLIT Stub.alice Stub.data) Stub.registered).
  - vm_compute. reflexivity.
  - vm_compute. reflexivity.
Defined.

Lemma record_unset_only_by_clear_witness :
  exists p hs,
    ClearProofByHashes Stub.JOIN_SPLIT [Stub.fp1] = ClearProofByHashes p hs
    /\ succeeds (run (Stub.clearProofByHashes Stub.dapp p hs) Stub.validated) = true
    /\ Stub.key Stub.fp1 Stub.JOIN_SPLIT Stub.dapp
       ∈ ACE.clear_keys Stub.keccak256 Stub.dapp p hs.
Proof.
  apply (record_unset_only_by_clear Stub.keccak256 Stub.staticcall Stub.BALANCED
           Stub.dapp (ClearProofByHashes Stub.JOIN_SPLIT [Stub.fp1]) Stub.validated).
  - vm_compute. reflexivity.
  - vm_compute. reflexivity.
Defined.

Lemma validate_then_clear_witness :
  exists m2,
    run (Stub.clearProofByHashes Stub.dapp Stub.JOIN_SPLIT [Stub.fp1; Stub.fp2])
        Stub.validated = Returned tt m2
    /\ set_validatedProofs (validatedProofs Stub.registered) (store m2) = Stub.registered.
Proof.
  assert (Hcat : proof_category Stub.JOIN_SPLIT = Stub.BALANCED)
    by (vm_compute; reflexivity).
  assert (Hrun : run (Stub.validateProof Stub.dapp Stub.JOIN_SPLIT Stub.alice Stub.data)
                     Stub.registered
                 = Returned [Stub.data; be_bytes 20 Stub.alice]
                     (mkMachine Stub.validated
                        [Ev_sstore "validatedProofs"
                           (Stub.key Stub.fp2 Stub.JOIN_SPLIT Stub.dapp);
                         Ev_sstore "validatedProofs"
                           (Stub.key Stub.fp1 Stub.JOIN_SPLIT Stub.dapp);
                         Ev_staticcall Stub.pair Stub.registered]))
    by (vm_compute; reflexivity).
  destruct (validate_then_clear Stub.keccak256 Stub.staticcall Stub.BALANCED
              Stub.dapp Stub.JOIN_SPLIT Stub.alice Stub.data Stub.registered _ _
              Hcat Hrun) as (m2 & Hclear & _ & Hback).
  - repeat constructor; vm_compute; discriminate.
  - apply (bool_decide_unpack (NoDup _)). vm_compute. exact I.
  - exists m2. split; [exact Hclear|exact Hback].
Defined.

Lemma setProof_then_resolve_witness :
  exists m,
    run (setProof Stub.owner Stub.JOIN_SPLIT Stub.pair) (deployed Stub.owner)
    = Returned tt m
    /\ run (getValidatorAddress Stub.JOIN_SPLIT) (store m)
       = Returned Stub.pair (mkMachine (store m) []).
Proof.
  destruct (setProof_then_resolve Stub.owner Stub.JOIN_SPLIT Stub.pair (deployed Stub.owner))
    as (m & Hrun & _ & Hres & _).
  - unfold uint24_range, Stub.JOIN_SPLIT. lia.
  - vm_compute. reflexivity.
  - vm_compute. discriminate.
  - vm_compute. reflexivity.
  - vm_compute. discriminate.
  - vm_compute. reflexivity.
  - exists m. split; assumption.
Defined.

Lemma dispatch_and_consult_agree_witness :
  succeeds (run (getValidatorAddress Stub.SHADOWED) Stub.invalidated)
  = succeeds (run (Stub.validateProofByHash Stub.SHADOWED Stub.fp1 Stub.dapp)
                  Stub.invalidated).
Proof.
  apply (dispatch_and_consult_agree Stub.keccak256 Stub.SHADOWED Stub.fp1 Stub.dapp
           Stub.invalidated).
  vm_compute. discriminate.
Defined.

Lemma validateProof_after_setCommonReferenceString_witness :
  exists m,
    run (Stub.validateProof Stub.dapp Stub.JOIN_SPLIT Stub.alice Stub.data)
        (transact (setCommonReferenceString Stub.owner Stub.crs) Stub.registered)
    = Returned [Stub.data; be_bytes 20 Stub.alice] m.
Proof.
  apply (validateProof_after_setCommonReferenceString Stub.keccak256 Stub.staticcall
           Stub.BALANCED Stub.owner Stub.crs Stub.dapp Stub.JOIN_SPLIT Stub.alice
           Stub.data Stub.registered Stub.pair).
  - vm_compute. reflexivity.
  - vm_compute. reflexivity.
Defined.

Lemma latestEpoch_over_histories_witness :
  latestEpoch Stub.last_epoch
  <= latestEpoch (Stub.replay [(Stub.owner, IncrementLatestEpoch);
                               (Stub.alice, IncrementLatestEpoch)] Stub.last_epoch)
  <= 255.
Proof.
  apply (latestEpoch_over_histories Stub.keccak256 Stub.staticcall Stub.BALANCED).
  vm_compute. split; discriminate.
Defined.

Lemma increments_saturate_witness :
  latestEpoch (Stub.replay (replicate 3 (Stub.owner, IncrementLatestEpoch))
                           (deployed Stub.owner)) = 4.
Proof.
  apply (increments_saturate Stub.keccak256 Stub.staticcall Stub.BALANCED 3 Stub.owner
           (deployed Stub.owner)).
  - vm_compute. reflexivity.
  - vm_compute. split; discriminate.
Defined.

Lemma epoch_gate_opens_witness :
  run (setProof Stub.owner Stub.EPOCH_2 Stub.pair) (deployed Stub.owner)
  = Reverted (Error "the proof epoch cannot be bigger than the latest epoch")
             (mkMachine (deployed Stub.owner) [])
  /\ exists m,
      run (setProof Stub.owner Stub.EPOCH_2 Stub.pair)
          (transact (incrementLatestEpoch Stub.owner) (deployed Stub.owner))
      = Returned tt m
      /\ validators_getter (proof_epoch Stub.EPOCH_2) (proof_category Stub.EPOCH_2)
                           (proof_id Stub.EPOCH_2) (store m) = Stub.pair.
Proof.
  apply (epoch_gate_opens Stub.owner Stub.EPOCH_2 Stub.pair (deployed Stub.owner)).
  - vm_compute. reflexivity.
  - vm_compute. discriminate.
  - vm_compute. reflexivity.
  - vm_compute. reflexivity.
Defined.
